(** * NoteFlix schema/record mini-database: a shallow embedding

    The development follows [Schemas/db.js] (the two IndexedDB object
    stores), [Schemas/schema.js] (schema save, delete and import),
    [Schemas/records.js] (record form, save, update and table rendering)
    and [Schemas/ui.js].  JavaScript values, strings and the two object
    stores are modelled first; the handlers come next, written in the order
    of their statements; the theorems are at the end. *)

From Stdlib Require Import ZArith Ascii String Decimal DecimalString DecimalZ DecimalPos.
From stdpp Require Import gmap strings list fin_maps sorting.

Local Open Scope string_scope.
Local Open Scope Z_scope.

(** ** JavaScript strings

    A string is its UTF-8 byte sequence: the labels of the source
    ([Kayıt], [Silinmiş]) are not Latin-1. *)
Module Js.

Definition bytes (l : list nat) : string :=
  foldr (fun n s => String (ascii_of_nat n) s) EmptyString l.

(** [WhiteSpace] and [LineTerminator] of ECMAScript, the code points
    [String.prototype.trim] and [StringToNumber] strip, each as UTF-8. *)
Definition WhiteSpace : list string :=
  map bytes
    [ [9%nat]; [10%nat]; [11%nat]; [12%nat]; [13%nat]; [32%nat];
      [194; 160]%nat;
      [225; 154; 128]%nat;
      [226; 128; 128]%nat; [226; 128; 129]%nat; [226; 128; 130]%nat;
      [226; 128; 131]%nat; [226; 128; 132]%nat; [226; 128; 133]%nat;
      [226; 128; 134]%nat; [226; 128; 135]%nat; [226; 128; 136]%nat;
      [226; 128; 137]%nat; [226; 128; 138]%nat;
      [226; 128; 168]%nat; [226; 128; 169]%nat; [226; 128; 175]%nat;
      [226; 129; 159]%nat;
      [227; 128; 128]%nat;
      [239; 187; 191]%nat ].

Fixpoint strip_prefix (p s : string) : option string :=
  match p, s with
  | EmptyString, _ => Some s
  | String a p', String b s' =>
      if Ascii.eqb a b then strip_prefix p' s' else None
  | String _ _, EmptyString => None
  end.

Fixpoint first_strip (ws : list string) (s : string) : option string :=
  match ws with
  | [] => None
  | w :: ws' =>
      match strip_prefix w s with
      | Some r => Some r
      | None => first_strip ws' s
      end
  end.

(** One leading white-space character removed, if there is one. *)
Definition ws_strip (s : string) : option string := first_strip WhiteSpace s.

Fixpoint trimStart_fuel (n : nat) (s : string) : string :=
  match n with
  | O => s
  | S n' =>
      match ws_strip s with
      | Some r => trimStart_fuel n' r
      | None => s
      end
  end.

(** Every strip consumes a byte, so the length of the string is fuel
    enough. *)
Definition trimStart (s : string) : string :=
  trimStart_fuel (String.length s) s.

Definition all_ws (s : string) : bool := String.eqb (trimStart s) "".

Fixpoint trimEnd (s : string) : string :=
  match s with
  | EmptyString => EmptyString
  | String c r => if all_ws s then EmptyString else String c (trimEnd r)
  end.

(** [s.trim()] *)
Definition trim (s : string) : string := trimEnd (trimStart s).

(** [s.split(',')] *)
Fixpoint split_comma_go (cur : string) (s : string) : list string :=
  match s with
  | EmptyString => [cur]
  | String c r =>
      if Ascii.eqb c ","%char then cur :: split_comma_go "" r
      else split_comma_go (cur ++ String c "") r
  end.

Definition split_comma (s : string) : list string := split_comma_go "" s.

(** [l.join(sep)] on strings *)
Fixpoint join (sep : string) (l : list string) : string :=
  match l with
  | [] => ""
  | [x] => x
  | x :: l' => x ++ sep ++ join sep l'
  end.

(** ** JavaScript values

    The values this program stores and compares: [undefined], booleans
    (check boxes), integral numbers (record ids and time stamps; a [VNum n]
    stands for the binary64 number of value [n]) and strings (every other
    form field). *)
Inductive JsVal :=
  | VUndef
  | VBool (b : bool)
  | VNum (n : Z)
  | VStr (s : string).

#[global] Instance JsVal_eq_dec : EqDecision JsVal.
Proof. solve_decision. Defined.

(** [ToBoolean] *)
Definition truthy (v : JsVal) : bool :=
  match v with
  | VUndef => false
  | VBool b => b
  | VNum n => negb (n =? 0)
  | VStr s => negb (String.eqb s "")
  end.

(** [a || b] *)
Definition js_or (a b : JsVal) : JsVal := if truthy a then a else b.

(** The decimal numeral of an integer; [Number::toString] prints an
    integral number below 10^21 that way. *)
Definition decimal (n : Z) : string := NilZero.string_of_int (Z.to_int n).

(** [ToString], as a template literal applies it. *)
Definition ToString (v : JsVal) : string :=
  match v with
  | VUndef => "undefined"
  | VBool true => "true"
  | VBool false => "false"
  | VNum n => decimal n
  | VStr s => s
  end.

(** ** [StringToNumber]

    The result of a conversion: [Finite m e] is the binary64 number
    [m * 2^e]. *)
Inductive JsNumber :=
  | NaN
  | Infinity (negative : bool)
  | Finite (m e : Z).

Definition is_digit (c : ascii) : bool :=
  (48 <=? Z.of_nat (nat_of_ascii c)) && (Z.of_nat (nat_of_ascii c) <=? 57).

(** The longest prefix of decimal digits, and what follows it. *)
Fixpoint span_digits (s : string) : string * string :=
  match s with
  | EmptyString => (EmptyString, EmptyString)
  | String c r =>
      if is_digit c
      then let '(d, t) := span_digits r in (String c d, t)
      else (EmptyString, s)
  end.

(** The strings of decimal digits. *)
Fixpoint all_digits (s : string) : bool :=
  match s with
  | EmptyString => true
  | String c r => is_digit c && all_digits r
  end.

(** The value of a string of decimal digits. *)
Definition digits_value (d : string) : Z :=
  match NilEmpty.uint_of_string d with
  | Some u => Z.of_uint u
  | None => 0
  end.

Definition unsigned_integer (s : string) : option Z :=
  let '(d, t) := span_digits s in
  if String.eqb d "" || negb (String.eqb t "") then None
  else Some (digits_value d).

(** [ExponentPart], or nothing. *)
Definition exponent_part (s : string) : option Z :=
  match s with
  | EmptyString => Some 0
  | String c r =>
      if Ascii.eqb c "e"%char || Ascii.eqb c "E"%char then
        match r with
        | String "+"%char r' => unsigned_integer r'
        | String "-"%char r' => Z.opp <$> unsigned_integer r'
        | _ => unsigned_integer r
        end
      else None
  end.

(** The mathematical value of a literal: infinite, or [d * 10^k]. *)
Inductive MV :=
  | MVInf
  | MVDec (d k : Z).

(** [StrUnsignedDecimalLiteral] *)
Definition unsigned_decimal (s : string) : option MV :=
  if String.eqb s "Infinity" then Some MVInf
  else
    let '(ip, r1) := span_digits s in
    let '(fp, r2) :=
      match r1 with
      | String "."%char r => span_digits r
      | _ => (EmptyString, r1)
      end in
    if String.eqb ip "" && String.eqb fp "" then None
    else
      match exponent_part r2 with
      | Some x =>
          Some (MVDec (digits_value (ip ++ fp))
                      (x - Z.of_nat (String.length fp)))
      | None => None
      end.

Definition digit_of (c : ascii) : option Z :=
  let n := Z.of_nat (nat_of_ascii c) in
  if (48 <=? n) && (n <=? 57) then Some (n - 48)
  else if (97 <=? n) && (n <=? 102) then Some (n - 87)
  else if (65 <=? n) && (n <=? 70) then Some (n - 55)
  else None.

Fixpoint radix_go (base acc : Z) (s : string) : option Z :=
  match s with
  | EmptyString => Some acc
  | String c r =>
      match digit_of c with
      | Some v => if v <? base then radix_go base (acc * base + v) r else None
      | None => None
      end
  end.

(** [NonDecimalIntegerLiteral]: [0x], [0o] and [0b] numerals. *)
Definition non_decimal (s : string) : option MV :=
  match s with
  | String "0"%char (String c r) =>
      let base :=
        if Ascii.eqb c "x"%char || Ascii.eqb c "X"%char then Some 16
        else if Ascii.eqb c "o"%char || Ascii.eqb c "O"%char then Some 8
        else if Ascii.eqb c "b"%char || Ascii.eqb c "B"%char then Some 2
        else None in
      match base, r with
      | Some b, String _ _ => (fun v => MVDec v 0) <$> radix_go b 0 r
      | _, _ => None
      end
  | _ => None
  end.

(** [StrNumericLiteral]: the sign and the value. *)
Definition numeric_literal (s : string) : option (bool * MV) :=
  match s with
  | String "+"%char r => (fun v => (false, v)) <$> unsigned_decimal r
  | String "-"%char r => (fun v => (true, v)) <$> unsigned_decimal r
  | _ =>
      match unsigned_decimal s with
      | Some v => Some (false, v)
      | None => (fun v => (false, v)) <$> non_decimal s
      end
  end.

(** Rounding [a / b] to the nearest integer, ties to even. *)
Definition round_half_even (a b : Z) : Z :=
  let q := a / b in
  let r := a mod b in
  if 2 * r <? b then q
  else if b <? 2 * r then q + 1
  else if Z.even q then q else q + 1.

(** [floor (log2 (p / q))] for positive [p] and [q]. *)
Definition floor_log2_ratio (p q : Z) : Z :=
  let e := Z.log2 p - Z.log2 q in
  if (if 0 <=? e then p <? q * 2 ^ e else p * 2 ^ (- e) <? q)
  then e - 1 else e.

(** The binary64 number nearest to [p / q] (ties to even), for positive
    [p] and [q]: 53 bits of precision, exponents from -1022. *)
Definition binary64_of_ratio (negative : bool) (p q : Z) : JsNumber :=
  let e := floor_log2_ratio p q in
  let ex := Z.max e (-1022) - 52 in
  let m :=
    if 0 <=? ex then round_half_even p (q * 2 ^ ex)
    else round_half_even (p * 2 ^ (- ex)) q in
  if (0 <=? ex) && (2 ^ 1024 <=? m * 2 ^ ex) then Infinity negative
  else Finite (if negative then - m else m) ex.

Definition number_of_MV (negative : bool) (v : MV) : JsNumber :=
  match v with
  | MVInf => Infinity negative
  | MVDec d k =>
      if d =? 0 then Finite 0 0
      else if 0 <=? k then binary64_of_ratio negative (d * 10 ^ k) 1
      else binary64_of_ratio negative d (10 ^ (- k))
  end.

(** [StringToNumber]; a literal is rounded correctly, as the engines do. *)
Definition StringToNumber (s : string) : JsNumber :=
  let t := trim s in
  if String.eqb t "" then Finite 0 0
  else
    match numeric_literal t with
    | Some (negative, v) => number_of_MV negative v
    | None => NaN
    end.

(** [x == n] for a converted number [x] and an integral number [n]. *)
Definition number_eq_Z (x : JsNumber) (n : Z) : bool :=
  match x with
  | Finite m e => if 0 <=? e then m * 2 ^ e =? n else m =? n * 2 ^ (- e)
  | _ => false
  end.

(** [IsLooselyEqual], the [==] operator. *)
Definition loose_eq (x y : JsVal) : bool :=
  match x, y with
  | VUndef, VUndef => true
  | VUndef, _ => false
  | _, VUndef => false
  | VBool a, VBool b => Bool.eqb a b
  | VNum a, VNum b => a =? b
  | VStr a, VStr b => String.eqb a b
  | VNum a, VStr s => number_eq_Z (StringToNumber s) a
  | VStr s, VNum a => number_eq_Z (StringToNumber s) a
  | VBool b, VNum a => Z.b2z b =? a
  | VNum a, VBool b => a =? Z.b2z b
  | VBool b, VStr s => number_eq_Z (StringToNumber s) (Z.b2z b)
  | VStr s, VBool b => number_eq_Z (StringToNumber s) (Z.b2z b)
  end.

End Js.

Import Js.

(** ** Objects used as maps

    The [data] of a record is a JavaScript object made by [{}], by the
    spread of one, or by the structured clone of one: its own properties
    in the order [Object.keys] and [Object.entries] list them (integer
    keys first in ascending order, the other keys in the order of their
    creation), and [Object.prototype] as its prototype. The values the
    program stores in it are primitive. *)
Definition JsObject : Type := list (string * JsVal).

(** The value of the own property [k] of [o], [undefined] when [o] has
    none: what [o.Title] gives, and [o[k]] for a key [k] that
    [Object.keys(o)] lists. *)
Fixpoint obj_get (o : JsObject) (k : string) : JsVal :=
  match o with
  | [] => VUndef
  | (k', v) :: o' => if String.eqb k' k then v else obj_get o' k
  end.

(** The integer a key stands for when it is an array index: a canonical
    numeral below 2^32 - 1. *)
Definition array_index (k : string) : option Z :=
  match k, NilEmpty.uint_of_string k with
  | String _ _, Some u =>
      let n := Z.of_uint u in
      if String.eqb (decimal n) k && (n <? 2 ^ 32 - 1) then Some n else None
  | _, _ => None
  end.

(** Whether a new key [k] is listed before the existing key [k']. *)
Definition key_before (k k' : string) : bool :=
  match array_index k, array_index k' with
  | Some i, Some j => i <? j
  | Some _, None => true
  | None, _ => false
  end.

(** The own property [k] of [o] set to [v]: an existing property keeps
    its place, a new one is listed after the others, an array index before
    the keys that are none. *)
Fixpoint obj_set (o : JsObject) (k : string) (v : JsVal) : JsObject :=
  match o with
  | [] => [(k, v)]
  | (k', v') :: o' =>
      if String.eqb k' k then (k, v) :: o'
      else if key_before k k' && negb (existsb (fun e => String.eqb e.1 k) o')
      then (k, v) :: (k', v') :: o'
      else (k', v') :: obj_set o' k v
  end.

Definition has_own (o : JsObject) (k : string) : bool :=
  existsb (fun e => String.eqb e.1 k) o.

(** The members of [Object.prototype] with a string key: the accessor
    [__proto__] and eleven functions, all of them writable. *)
Definition Object_prototype : list string :=
  [ "constructor"; "__defineGetter__"; "__defineSetter__"; "hasOwnProperty";
    "__lookupGetter__"; "__lookupSetter__"; "isPrototypeOf";
    "propertyIsEnumerable"; "toString"; "valueOf"; "__proto__";
    "toLocaleString" ].

Definition inherited (k : string) : bool :=
  existsb (String.eqb k) Object_prototype.

(** What the expression [o[k]] evaluates to for an arbitrary key: the
    value of the own property, else the member of [Object.prototype] of
    that name (a function; [Object.prototype] itself for [__proto__]),
    which is an object and no primitive, else [undefined]. *)
Inductive Member :=
  | Prim (v : JsVal)
  | Inherited (k : string).

Definition obj_member (o : JsObject) (k : string) : Member :=
  if has_own o k || negb (inherited k) then Prim (obj_get o k)
  else Inherited k.

(** [!!o[k]]: an object is truthy. *)
Definition member_truthy (m : Member) : bool :=
  match m with
  | Prim v => truthy v
  | Inherited _ => true
  end.

(** [o[k] = v] for a primitive [v]. The assignment goes through the
    prototype when [o] has no own property [k]: the setter of [__proto__]
    ignores a value that is no object and leaves [o] as it is; every other
    member of [Object.prototype] is a writable data property, so the
    assignment defines the own property as it does for any other key. *)
Definition obj_assign (o : JsObject) (k : string) (v : JsVal) : JsObject :=
  if String.eqb k "__proto__" && negb (has_own o k) then o
  else obj_set o k v.

(** [o[Object.keys(o)[0]]]; on an object without keys the index is
    [undefined] and so is the result. *)
Definition first_value (o : JsObject) : JsVal :=
  match o with
  | [] => VUndef
  | (k, _) :: _ => obj_get o k
  end.

(** ** The data model ([Schemas/db.js], [Schemas/schema.js]) *)

(** A property definition, as the schema form saves it. [prop_type] is
    the string of the type selector: the code compares it as a string. *)
Record Property := {
  prop_name : string;
  prop_type : string;
  prop_options : list string;
  isMandatory : bool;
  relatedSchema : option string
}.

Record Schema := {
  schema_name : string;
  properties : list Property
}.

(** A record object; [rec_id] is absent until the object store assigns
    the key. *)
Record Rec := {
  rec_id : option Z;
  rec_schema : string;
  rec_data : JsObject;
  createdAt : Z;
  createdTime : string;
  createdBy : string;
  lastEditedTime : string;
  lastEditedBy : string
}.

(** The two object stores of [notion_like_db_modular_v1]: [schemas] with
    key path [name], [records] with key path [id] and a key generator. *)
Record DB := {
  schemas : gmap string Schema;
  records : gmap Z Rec;
  keyGenerator : Z
}.

(** The stores as [onupgradeneeded] creates them. *)
Definition openDB : DB :=
  {| schemas := ∅; records := ∅; keyGenerator := 1 |}.

Definition set_schemas (m : gmap string Schema) (db : DB) : DB :=
  {| schemas := m; records := records db; keyGenerator := keyGenerator db |}.

Definition set_records (m : gmap Z Rec) (db : DB) : DB :=
  {| schemas := schemas db; records := m; keyGenerator := keyGenerator db |}.

Definition with_id (k : Z) (r : Rec) : Rec :=
  {| rec_id := Some k; rec_schema := rec_schema r; rec_data := rec_data r;
     createdAt := createdAt r; createdTime := createdTime r;
     createdBy := createdBy r; lastEditedTime := lastEditedTime r;
     lastEditedBy := lastEditedBy r |}.

Definition with_schema (s : string) (r : Rec) : Rec :=
  {| rec_id := rec_id r; rec_schema := s; rec_data := rec_data r;
     createdAt := createdAt r; createdTime := createdTime r;
     createdBy := createdBy r; lastEditedTime := lastEditedTime r;
     lastEditedBy := lastEditedBy r |}.

(** The order of the keys of an object store. *)
Definition key_le {V : Type} (a b : Z * V) : Prop := a.1 ≤ b.1.

#[global] Instance key_le_dec {V : Type} (a b : Z * V) : Decision (key_le a b).
Proof. unfold key_le. apply _. Defined.

(** Keys that are strings are ordered by their UTF-16 code units. On the
    UTF-8 bytes that is the order of the bytes, but for the characters
    above the basic plane (lead bytes [F0]..[F4]), whose surrogates come
    before the characters [U+E000]..[U+FFFF] (lead bytes [EE] and [EF]). *)
Definition utf16_rank (c : ascii) : ascii :=
  let n := nat_of_ascii c in
  if (238 <=? n)%nat && (n <=? 239)%nat then ascii_of_nat (n + 5)
  else if (240 <=? n)%nat && (n <=? 244)%nat then ascii_of_nat (n - 2)
  else c.

Fixpoint utf16_key (s : string) : string :=
  match s with
  | EmptyString => EmptyString
  | String c r => String (utf16_rank c) (utf16_key r)
  end.

Definition name_le {V : Type} (a b : string * V) : Prop :=
  String.leb (utf16_key a.1) (utf16_key b.1) = true.

#[global] Instance name_le_dec {V : Type} (a b : string * V) :
  Decision (name_le a b).
Proof. unfold name_le. apply _. Defined.

(** The entries of the record store in key order, as [getAll] and a
    cursor visit them. *)
Definition record_entries (m : gmap Z Rec) : list (Z * Rec) :=
  merge_sort key_le (map_to_list m).

Definition schema_entries (m : gmap string Schema) : list (string * Schema) :=
  merge_sort name_le (map_to_list m).

Module schemaStore.

Definition getAll (db : DB) : list Schema := (schema_entries (schemas db)).*2.

Definition get (name : string) (db : DB) : option Schema :=
  schemas db !! name.

(** [put] writes at the key the key path gives: the schema's name. *)
Definition put (schema : Schema) (db : DB) : DB :=
  set_schemas (<[schema_name schema := schema]> (schemas db)) db.

Definition delete (name : string) (db : DB) : DB :=
  set_schemas (base.delete name (schemas db)) db.

End schemaStore.

Module recordStore.

(** [s.put(rec)] on a store with a key generator: a record without [id]
    gets the next key, stored in its [id]; a record with an [id] is
    written at that key and the generator moves past it. *)
Definition add (rec : Rec) (db : DB) : DB :=
  match rec_id rec with
  | Some k =>
      {| schemas := schemas db;
         records := <[k := rec]> (records db);
         keyGenerator := Z.max (keyGenerator db) (k + 1) |}
  | None =>
      let k := keyGenerator db in
      {| schemas := schemas db;
         records := <[k := with_id k rec]> (records db);
         keyGenerator := k + 1 |}
  end.

Definition getAll (db : DB) : list Rec := (record_entries (records db)).*2.

Definition all (db : DB) : list Rec := getAll db.

(** A cursor over the store: [body] runs on every key in key order with
    the value the store holds when the cursor arrives. Both loops below
    touch the entry under the cursor only, so the keys are those the
    store had when the cursor was opened. *)
Definition cursor (body : Z → Rec → gmap Z Rec → gmap Z Rec)
    (m : gmap Z Rec) : gmap Z Rec :=
  foldl
    (fun acc k =>
       match acc !! k with
       | Some v => body k v acc
       | None => acc
       end)
    m (record_entries m).*1.

Definition deleteBySchema (schema : string) (db : DB) : DB :=
  set_records
    (cursor
       (fun k v acc =>
          if String.eqb (rec_schema v) schema then base.delete k acc else acc)
       (records db))
    db.

Definition renameSchema (oldName newName : string) (db : DB) : DB :=
  set_records
    (cursor
       (fun k v acc =>
          if String.eqb (rec_schema v) oldName
          then <[k := with_schema newName v]> acc
          else acc)
       (records db))
    db.

End recordStore.

(** What a handler leaves behind: the stores, the messages it showed with
    [alert], and the exception that ended it, if one did. *)
Record Result := {
  final : DB;
  alerts : list string;
  thrown : option string
}.

Definition done_ (db : DB) : Result :=
  {| final := db; alerts := []; thrown := None |}.

Definition alert (msg : string) (db : DB) : Result :=
  {| final := db; alerts := [msg]; thrown := None |}.

Definition throw (err : string) (db : DB) : Result :=
  {| final := db; alerts := []; thrown := Some err |}.

(** The wall clock a handler reads: [Date.now()] and
    [new Date(t).toLocaleString()]. *)
Record Clock := {
  Date_now : Z;
  toLocaleString : Z → string
}.

(** ** [Schemas/records.js] *)
Module records.

(** The module variables. *)
Record State := {
  activeSchema : option Schema;
  editMode : bool;
  editingRecordId : option Z
}.

Definition initial : State :=
  {| activeSchema := None; editMode := false; editingRecordId := None |}.

(** [rec.id] as a value. *)
Definition id_val (r : Rec) : JsVal :=
  match rec_id r with
  | Some n => VNum n
  | None => VUndef
  end.

(** [recs.sort((a, b) => (b.createdAt || 0) - (a.createdAt || 0))]:
    the sort is stable, latest first. *)
Fixpoint insert_desc (r : Rec) (l : list Rec) : list Rec :=
  match l with
  | [] => [r]
  | y :: l' =>
      if createdAt y <=? createdAt r then r :: l else y :: insert_desc r l'
  end.

Definition sort_desc (l : list Rec) : list Rec := foldr insert_desc [] l.

(** [data.Title || data[Object.keys(data)[0]] || fallback] *)
Definition titleProp (data : JsObject) (fallback : string) : JsVal :=
  js_or (obj_get data "Title") (js_or (first_value data) (VStr fallback)).

(** [schema?.properties?.find(p => p.name === k)] *)
Definition find_property (schema : option Schema) (k : string)
    : option Property :=
  match schema with
  | Some s => List.find (fun p => String.eqb (prop_name p) k) (properties s)
  | None => None
  end.

(** The callback of [Object.entries(r.data).map] in [renderRecordTable]:
    the text shown for one entry of a record's data. *)
Definition renderEntry (allRecords : list Rec) (schema : option Schema)
    (e : string * JsVal) : string :=
  let '(k, v) := e in
  let is_relation :=
    match find_property schema k with
    | Some prop => String.eqb (prop_type prop) "Relation" && truthy v
    | None => false
    end in
  if is_relation then
    match List.find (fun rec => loose_eq (id_val rec) v) allRecords with
    | Some relatedRecord =>
        k ++ ": " ++
        ToString (titleProp (rec_data relatedRecord) ("Kayıt #" ++ ToString v))
    | None => k ++ ": Silinmiş Kayıt (#" ++ ToString v ++ ")"
    end
  else k ++ ": " ++ ToString v.

Definition autoFields (r : Rec) : list string :=
  (if String.eqb (createdTime r) "" then []
   else ["Oluşturulma: " ++ createdTime r]) ++
  (if String.eqb (createdBy r) "" then []
   else ["Oluşturan: " ++ createdBy r]) ++
  (if String.eqb (lastEditedTime r) "" then []
   else ["Son Düzenleme: " ++ lastEditedTime r]) ++
  (if String.eqb (lastEditedBy r) "" then []
   else ["Son Düzenleyen: " ++ lastEditedBy r]).

(** A row of the record table: the schema cell, the values cell and the
    record its two buttons are bound to. *)
Record Row := {
  row_schema : string;
  row_vals : string;
  row_record : Rec
}.

Definition renderRow (allRecords : list Rec) (allSchemas : list Schema)
    (r : Rec) : Row :=
  let schema :=
    List.find (fun s => String.eqb (schema_name s) (rec_schema r)) allSchemas in
  let dataEntries := map (renderEntry allRecords schema) (rec_data r) in
  let vals := join ", " dataEntries in
  let allVals :=
    join ", "
      (List.filter (fun s => negb (String.eqb s "")) (vals :: autoFields r)) in
  {| row_schema := rec_schema r; row_vals := allVals; row_record := r |}.

(** [renderRecordTable]; [allRecords] is the array [recs] itself, so the
    relation lookups run on the sorted array. Without records the table
    shows one line of text and no row. *)
Definition renderRecordTable (db : DB) : list Row :=
  let recs := sort_desc (recordStore.all db) in
  let allRecords := recs in
  let allSchemas := schemaStore.getAll db in
  map (renderRow allRecords allSchemas) recs.

(** An [option] element of a select box. *)
Record OptionEl := {
  opt_value : string;
  opt_text : string;
  opt_selected : bool
}.

Inductive Widget :=
  | NumberInput
  | SelectBox (opts : list OptionEl)
  | DateText (value : Member)
  | DateTimeText (value : Member)
  | RelationSelect (opts : list OptionEl)
  | CheckboxInput (checked : bool)
  | TextInput.

(** A form row: the property the control is bound to ([data-prop]), the
    control, and what [buildForm] assigns to the [value] of the control
    when the record has something under the name of the property. *)
Record Field := {
  data_prop : string;
  widget : Widget;
  assigned : option Member
}.

(** The options of a relation picker: the blank one, then one for every
    record of the related schema. [existingData[p.name] == rec.id] compares
    with the id of a record, a number or [undefined], which an object is
    never equal to: an object is compared through its string, and the
    string of [Object.prototype] or of a function is no numeral. *)
Definition relationOptions (allRecords : list Rec) (p : Property)
    (existingData : JsObject) : list OptionEl :=
  {| opt_value := ""; opt_text := "— Seçiniz —"; opt_selected := false |} ::
  match relatedSchema p with
  | Some related =>
      if String.eqb related "" then []
      else
        map
          (fun rec =>
             {| opt_value := ToString (id_val rec);
                opt_text :=
                  ToString
                    (titleProp (rec_data rec)
                       ("Kayıt #" ++ ToString (id_val rec)));
                opt_selected :=
                  match obj_member existingData (prop_name p) with
                  | Prim existing => loose_eq existing (id_val rec)
                  | Inherited _ => false
                  end |})
          (List.filter (fun r => String.eqb (rec_schema r) related) allRecords)
  | None => []
  end.

(** [existingData[p.name] || ''] *)
Definition or_empty (m : Member) : Member :=
  match m with
  | Prim v => Prim (js_or v (VStr ""))
  | Inherited _ => m
  end.

Definition buildField (allRecords : list Rec) (existingData : JsObject)
    (p : Property) : Field :=
  let existing := obj_member existingData (prop_name p) in
  let value :=
    match existing with
    | Prim VUndef => None
    | _ => Some existing
    end in
  if String.eqb (prop_type p) "Number" then
    {| data_prop := prop_name p; widget := NumberInput; assigned := value |}
  else if String.eqb (prop_type p) "Select" then
    {| data_prop := prop_name p;
       widget :=
         SelectBox
           ({| opt_value := ""; opt_text := "—"; opt_selected := false |} ::
            map (fun opt =>
                   {| opt_value := opt; opt_text := opt;
                      opt_selected := false |})
                (prop_options p));
       assigned := value |}
  else if String.eqb (prop_type p) "Date" then
    {| data_prop := prop_name p; widget := DateText (or_empty existing);
       assigned := None |}
  else if String.eqb (prop_type p) "DateTime" then
    {| data_prop := prop_name p; widget := DateTimeText (or_empty existing);
       assigned := None |}
  else if String.eqb (prop_type p) "Relation" then
    {| data_prop := prop_name p;
       widget := RelationSelect (relationOptions allRecords p existingData);
       assigned := value |}
  else if String.eqb (prop_type p) "Checkbox" then
    {| data_prop := prop_name p;
       widget := CheckboxInput (member_truthy existing);
       assigned := None |}
  else
    {| data_prop := prop_name p; widget := TextInput; assigned := value |}.

(** [buildForm(schema, existingData)]; the relation pickers are filled
    from [recordStore.all()]. *)
Definition buildForm (schema : Schema) (existingData : JsObject) (db : DB)
    : list Field :=
  map (buildField (recordStore.all db) existingData) (properties schema).

Definition openRecordModal (schema : Schema) : State :=
  {| activeSchema := Some schema; editMode := false;
     editingRecordId := None |}.

(** [schemasCache] is the list kept in [localStorage]. *)
Definition openRecordModalForEdit (schemasCache : list Schema) (record : Rec)
    : State :=
  {| activeSchema :=
       match
         List.find (fun s => String.eqb (schema_name s) (rec_schema record))
           schemasCache
       with
       | Some schemaObj => Some schemaObj
       | None =>
           Some {| schema_name := rec_schema record; properties := [] |}
       end;
     editMode := true;
     editingRecordId := rec_id record |}.

(** An element [#recordForm [data-prop]] when the form is submitted: a
    check box with its state, or any other control with its value. *)
Inductive Control :=
  | CheckboxEl (checked : bool)
  | ValueEl (value : string).

Record FormEl := {
  el_prop : string;
  el_control : Control
}.

Definition is_checkbox (c : Control) : bool :=
  match c with
  | CheckboxEl _ => true
  | ValueEl _ => false
  end.

(** [buildForm] writes the name and the type of a property into the label
    of its row through [innerHTML]: a text with a [<] in it may add
    elements to the form. *)
Definition has_markup (s : string) : bool :=
  existsb (Ascii.eqb "<"%char) (list_ascii_of_string s).

Definition is_checkbox_field (f : Field) : bool :=
  match widget f with
  | CheckboxInput _ => true
  | _ => false
  end.

(** The submitted elements are those [buildForm] made for the schema, in
    its order: when no label holds markup, one per property, a check box
    exactly for the properties of type [Checkbox]. *)
Definition form_of (schema : Schema) (form : list FormEl) : Prop :=
  forallb
    (fun p => negb (has_markup (prop_name p)) && negb (has_markup (prop_type p)))
    (properties schema) = true ∧
  map (fun el => (el_prop el, is_checkbox (el_control el))) form =
  map (fun p => (prop_name p, String.eqb (prop_type p) "Checkbox"))
    (properties schema).

(** [el.checked] of a check box, [el.value] of another control. *)
Definition control_value (c : Control) : JsVal :=
  match c with
  | CheckboxEl checked => VBool checked
  | ValueEl value => VStr value
  end.

(** The loop that collects [data], an object made by [{}]. *)
Definition collect (form : list FormEl) : JsObject :=
  foldl
    (fun data el =>
       obj_assign data (el_prop el) (control_value (el_control el)))
    [] form.

(** The test on one property in the mandatory check; [None] stands for
    the [TypeError] of calling [trim] on a value that has none: a boolean,
    or an object found on the prototype, which is truthy. *)
Definition is_missing (data : JsObject) (p : Property) : option bool :=
  if isMandatory p then
    let value := obj_member data (prop_name p) in
    if String.eqb (prop_type p) "Checkbox" then Some false
    else
      match value with
      | Inherited _ => None
      | Prim v =>
          if negb (truthy v) then Some true
          else
            match v with
            | VStr s => Some (String.eqb (trim s) "")
            | _ => None
            end
      end
  else Some false.

Fixpoint missingFields (data : JsObject) (props : list Property)
    : option (list string) :=
  match props with
  | [] => Some []
  | p :: ps =>
      match is_missing data p with
      | None => None
      | Some b =>
          match missingFields data ps with
          | None => None
          | Some l => Some (if b then prop_name p :: l else l)
          end
      end
  end.

Definition bullet : string := bytes [10%nat] ++ "• ".

(** The second argument of [updateRecord] at its call. *)
Record UpdatedFields := {
  upd_data : JsObject;
  upd_lastEditedTime : string;
  upd_lastEditedBy : string
}.

(** [{ ...target, ...updatedFields }] *)
Definition spread (target : Rec) (u : UpdatedFields) : Rec :=
  {| rec_id := rec_id target; rec_schema := rec_schema target;
     rec_data := upd_data u;
     createdAt := createdAt target; createdTime := createdTime target;
     createdBy := createdBy target;
     lastEditedTime := upd_lastEditedTime u;
     lastEditedBy := upd_lastEditedBy u |}.

Definition updateRecord (id : Z) (updatedFields : UpdatedFields) (db : DB)
    : Result :=
  let all := recordStore.all db in
  match List.find (fun r => bool_decide (rec_id r = Some id)) all with
  | None => alert "Kayıt bulunamadı" db
  | Some target => done_ (recordStore.add (spread target updatedFields) db)
  end.

(** The click handler of [#btnSaveRecord]. *)
Definition btnSaveRecord (clock : Clock) (st : State) (form : list FormEl)
    (db : DB) : Result :=
  match activeSchema st with
  | None => alert "Önce bir şema seçin" db
  | Some schema =>
      let data := collect form in
      match missingFields data (properties schema) with
      | None => throw "TypeError: value.trim is not a function" db
      | Some missing =>
          if negb (bool_decide (missing = [])) then
            alert ("Zorunlu alanlar doldurulmalı:" ++ bullet ++
                   join bullet missing) db
          else
            let now := Date_now clock in
            match editMode st, editingRecordId st with
            | true, Some id =>
                updateRecord id
                  {| upd_data := data;
                     upd_lastEditedTime := toLocaleString clock now;
                     upd_lastEditedBy := "Admin" |}
                  db
            | _, _ =>
                done_
                  (recordStore.add
                     {| rec_id := None;
                        rec_schema := schema_name schema;
                        rec_data := data;
                        createdAt := now;
                        createdTime := toLocaleString clock now;
                        createdBy := "Admin";
                        lastEditedTime := toLocaleString clock now;
                        lastEditedBy := "Admin" |}
                     db)
            end
      end
  end.

Definition deleteRecordById (id : Z) (db : DB) : DB :=
  set_records (base.delete id (records db)) db.

(** [confirmed] is the answer to the [confirm] dialog. *)
Definition deleteRecord (id : Z) (confirmed : bool) (db : DB) : DB :=
  if confirmed then deleteRecordById id db else db.

End records.

(** ** [Schemas/schema.js] *)
Module schema.

(** The module variables. *)
Record State := {
  editMode : bool;
  editingSchemaName : option string
}.

(** [openSchemaModal(schema)]; [None] is the call for a new schema. *)
Definition openSchemaModal (schema : option Schema) : State :=
  {| editMode := bool_decide (is_Some schema);
     editingSchemaName := schema_name <$> schema |}.

(** A row [#propList .prop-row] with the state of its controls. *)
Record PropRow := {
  pname : string;
  ptype : string;
  poptions : string;
  pmandatory : bool;
  prelatedschema : string
}.

(** The callback of [rows.map] in the save handler. *)
Definition property_of_row (r : PropRow) : Property :=
  {| prop_name := trim (pname r);
     prop_type := ptype r;
     prop_options :=
       List.filter (fun x => negb (String.eqb x ""))
         (map trim (split_comma (poptions r)));
     isMandatory := pmandatory r;
     relatedSchema :=
       if String.eqb (prelatedschema r) "" then None
       else Some (prelatedschema r) |}.

Definition properties_of_rows (rows : list PropRow) : list Property :=
  List.filter (fun p => negb (String.eqb (prop_name p) ""))
    (map property_of_row rows).

(** [existing.some(s => s.name === name &&
                        (!editMode || s.name !== editingSchemaName))] *)
Definition nameTaken (st : State) (name : string) (existing : list Schema)
    : bool :=
  existsb
    (fun s =>
       String.eqb (schema_name s) name &&
       (negb (editMode st) ||
        negb (bool_decide (Some (schema_name s) = editingSchemaName st))))
    existing.

(** The click handler of [#btnSaveSchema]; [schemaName] is the value of
    the name input. *)
Definition btnSaveSchema (st : State) (schemaName : string)
    (rows : list PropRow) (db : DB) : Result :=
  let name := trim schemaName in
  if String.eqb name "" then alert "Şema adı gerekli" db
  else
    let properties := properties_of_rows rows in
    if bool_decide (properties = []) then alert "En az bir property ekleyin" db
    else
      let existing := schemaStore.getAll db in
      if nameTaken st name existing then
        alert "Bu isimde bir şema zaten var." db
      else
        let schema := {| schema_name := name; properties := properties |} in
        if editMode st then
          if bool_decide (Some name = editingSchemaName st) then
            done_ (schemaStore.put schema db)
          else
            match editingSchemaName st with
            | Some old =>
                done_
                  (schemaStore.put schema
                     (schemaStore.delete old
                        (recordStore.renameSchema old name db)))
            | None =>
                (* [renameSchema(null, name)] matches no record and
                   [delete(null)] is refused: [null] is no key. *)
                throw "DataError" db
            end
        else done_ (schemaStore.put schema db).

(** [deleteSchemaFlow]; [confirmed] and [withRecords] are the answers to
    the two [confirm] dialogs. *)
Definition deleteSchemaFlow (schemaName : string)
    (confirmed withRecords : bool) (db : DB) : DB :=
  if negb confirmed then db
  else
    let db1 := schemaStore.delete schemaName db in
    if withRecords then recordStore.deleteBySchema schemaName db1 else db1.

(** The [name] of an element of the imported array, as the test
    [sc.name] and the key path of the store read it: absent or falsy
    ([null], [false], [0]); a string; or truthy and no valid key ([true],
    an object, an array that holds one), for which [put] raises a
    [DataError] with the message of the browser. A name that is another
    number or an array of keys would be stored under a key that is no
    string: such a file leads out of the stores described here and is no
    value of this type. *)
Inductive ItemName :=
  | NoName
  | StringName (name : string)
  | NoKey (message : string).

(** An element of the imported array: [None] for a value without [name]
    ([null], a boolean, a number, a string, an array); for an object, its
    [name] and its [properties]: [None] when that is no array, the list
    when it is an array of property definitions as the schema form writes
    them. An array of other values is no value of this type: the stored
    schema would not be one the record form or the table can read. *)
Record ImportItem := {
  item_name : ItemName;
  item_properties : option (list Property)
}.

(** What [JSON.parse(text)] gives. *)
Inductive Parsed :=
  | SyntaxError (message : string)
  | NotArray
  | Array (list_ : list (option ImportItem)).

(** [err.message || err]: an error without message prints as its name. *)
Definition error_text (name message : string) : string :=
  if String.eqb message "" then name else message.

(** The loop over the array. Every [put] is a transaction of its own: the
    schemas stored before a [put] raises stay stored. *)
Fixpoint import_loop (list_ : list (option ImportItem)) (db : DB) : Result :=
  match list_ with
  | [] => alert "Şemalar içe aktarıldı" db
  | sc :: rest =>
      match sc with
      | Some {| item_name := StringName name; item_properties := Some props |} =>
          if String.eqb name "" then import_loop rest db
          else
            import_loop rest
              (schemaStore.put {| schema_name := name; properties := props |}
                 db)
      | Some {| item_name := NoKey message; item_properties := Some _ |} =>
          alert ("Hata: " ++ error_text "DataError" message) db
      | _ => import_loop rest db
      end
  end.

(** [importSchemas]; [file] is the parsed content of the chosen file,
    [None] when no file was chosen. *)
Definition importSchemas (file : option Parsed) (db : DB) : Result :=
  match file with
  | None => done_ db
  | Some (SyntaxError message) =>
      alert ("Hata: " ++ error_text "SyntaxError" message) db
  | Some NotArray => alert "Hata: Geçersiz dosya" db
  | Some (Array list_) => import_loop list_ db
  end.

End schema.

(** ** Invariants of the stores

    A store with a key path takes the key of a value from the value, so a
    stored schema is named as its key and a stored record carries its key
    as [id]; the key generator is ahead of every key it gave out. *)
Definition wf (db : DB) : Prop :=
  map_Forall (fun name s => schema_name s = name) (schemas db) ∧
  map_Forall (fun k r => rec_id r = Some k ∧ 0 < k < keyGenerator db)
    (records db) ∧
  0 < keyGenerator db.

(** What the rename loop does to one record. *)
Definition rename_in (oldName newName : string) (r : Rec) : Rec :=
  if String.eqb (rec_schema r) oldName then with_schema newName r else r.

(** ** The states of the two stores

    One event of the interface, with what the user entered or answered,
    takes the stores from one state to the next. *)
Inductive step (db : DB) : DB → Prop :=
  | step_saveSchema (st : schema.State) (schemaName : string)
      (rows : list schema.PropRow) :
      step db (final (schema.btnSaveSchema st schemaName rows db))
  | step_deleteSchema (schemaName : string) (confirmed withRecords : bool) :
      step db (schema.deleteSchemaFlow schemaName confirmed withRecords db)
  | step_importSchemas (file : option schema.Parsed) :
      step db (final (schema.importSchemas file db))
  | step_saveRecord (clock : Clock) (st : records.State)
      (form : list records.FormEl) :
      step db (final (records.btnSaveRecord clock st form db))
  | step_deleteRecord (id : Z) (confirmed : bool) :
      step db (records.deleteRecord id confirmed db).

(** The states the interface can bring the stores to. *)
Inductive reachable : DB → Prop :=
  | reachable_open : reachable openDB
  | reachable_step (db db' : DB) :
      reachable db → step db db' → reachable db'.

(** ** A scenario: tasks and projects *)
Module Scenario.

Definition clock : Clock :=
  {| Date_now := 1700000000000; toLocaleString := fun t => "t" ++ decimal t |}.

Definition taskRows : list schema.PropRow :=
  [ {| schema.pname := "Title"; schema.ptype := "Title";
       schema.poptions := ""; schema.pmandatory := true;
       schema.prelatedschema := "" |};
    {| schema.pname := "Priority"; schema.ptype := "Select";
       schema.poptions := "Low, High"; schema.pmandatory := false;
       schema.prelatedschema := "" |} ].

Definition projectRows : list schema.PropRow :=
  [ {| schema.pname := "Name"; schema.ptype := "Text";
       schema.poptions := ""; schema.pmandatory := false;
       schema.prelatedschema := "" |};
    {| schema.pname := "Task"; schema.ptype := "Relation";
       schema.poptions := ""; schema.pmandatory := false;
       schema.prelatedschema := "Task" |} ].

(** Both schemas saved through the schema form. *)
Definition db_schemas : DB :=
  final
    (schema.btnSaveSchema (schema.openSchemaModal None) " Project " projectRows
       (final
          (schema.btnSaveSchema (schema.openSchemaModal None) "Task" taskRows
             openDB))).

Definition taskSchema : Schema :=
  default {| schema_name := ""; properties := [] |}
    (schemaStore.get "Task" db_schemas).

Definition projectSchema : Schema :=
  default {| schema_name := ""; properties := [] |}
    (schemaStore.get "Project" db_schemas).

Definition taskForm : list records.FormEl :=
  [ {| records.el_prop := "Title";
       records.el_control := records.ValueEl "Ship spec" |};
    {| records.el_prop := "Priority";
       records.el_control := records.ValueEl "High" |} ].

(** A task saved through the record form: it gets the id 1. *)
Definition db_task : DB :=
  final
    (records.btnSaveRecord clock (records.openRecordModal taskSchema)
       taskForm db_schemas).

Definition projectForm (task : string) : list records.FormEl :=
  [ {| records.el_prop := "Name";
       records.el_control := records.ValueEl "Launch" |};
    {| records.el_prop := "Task";
       records.el_control := records.ValueEl task |} ].

(** A project pointing at the task: it gets the id 2. *)
Definition db_project : DB :=
  final
    (records.btnSaveRecord clock (records.openRecordModal projectSchema)
       (projectForm "1") db_task).

(** The task deleted, the project left with a dangling reference. *)
Definition db_dangling : DB := records.deleteRecord 1 true db_project.


(** A schema [Clash] saved with one property, a record of it (id 3), and
    the schema then edited to three properties of which two share the
    name [X]: a mandatory text and a check box. *)
Definition rowA : schema.PropRow :=
  {| schema.pname := "A"; schema.ptype := "Text"; schema.poptions := "";
     schema.pmandatory := true; schema.prelatedschema := "" |}.

Definition clashRows : list schema.PropRow :=
  [ rowA;
    {| schema.pname := "X"; schema.ptype := "Text"; schema.poptions := "";
       schema.pmandatory := true; schema.prelatedschema := "" |};
    {| schema.pname := "X"; schema.ptype := "Checkbox";
       schema.poptions := ""; schema.pmandatory := false;
       schema.prelatedschema := "" |} ].

Definition db_clash0 : DB :=
  final
    (schema.btnSaveSchema (schema.openSchemaModal None) "Clash" [rowA]
       db_project).

Definition db_clash1 : DB :=
  final
    (records.btnSaveRecord clock
       (records.openRecordModal
          (default {| schema_name := ""; properties := [] |}
             (schemaStore.get "Clash" db_clash0)))
       [ {| records.el_prop := "A";
            records.el_control := records.ValueEl "a" |} ]
       db_clash0).

Definition db_clash : DB :=
  final
    (schema.btnSaveSchema
       (schema.openSchemaModal (schemaStore.get "Clash" db_clash1))
       "Clash" clashRows db_clash1).

Definition clashSchema : Schema :=
  default {| schema_name := ""; properties := [] |}
    (schemaStore.get "Clash" db_clash).

Definition clashRecord : Rec :=
  default
    {| rec_id := None; rec_schema := ""; rec_data := []; createdAt := 0;
       createdTime := ""; createdBy := ""; lastEditedTime := "";
       lastEditedBy := "" |}
    (records db_clash !! 3).

(** The form with [A] left empty, the text [X] filled in and the check
    box [X] ticked. *)
Definition clashForm : list records.FormEl :=
  [ {| records.el_prop := "A"; records.el_control := records.ValueEl "" |};
    {| records.el_prop := "X";
       records.el_control := records.ValueEl "filled" |};
    {| records.el_prop := "X";
       records.el_control := records.CheckboxEl true |} ].

(** Notes with an optional title, a link to a note, and a flag that is
    saved as a check box and retyped to a relation afterwards. *)
Definition noteRows : list schema.PropRow :=
  [ {| schema.pname := "Name"; schema.ptype := "Text";
       schema.poptions := ""; schema.pmandatory := false;
       schema.prelatedschema := "" |};
    {| schema.pname := "Title"; schema.ptype := "Title";
       schema.poptions := ""; schema.pmandatory := false;
       schema.prelatedschema := "" |} ].

Definition refRows (ptype related : string) : list schema.PropRow :=
  [ {| schema.pname := "Ref"; schema.ptype := ptype;
       schema.poptions := ""; schema.pmandatory := false;
       schema.prelatedschema := related |} ].

Definition db_notes : DB :=
  final
    (schema.btnSaveSchema (schema.openSchemaModal None) "Flag"
       (refRows "Checkbox" "")
       (final
          (schema.btnSaveSchema (schema.openSchemaModal None) "Link"
             (refRows "Relation" "Note")
             (final
                (schema.btnSaveSchema (schema.openSchemaModal None) "Note"
                   noteRows openDB))))).

Definition stored (name : string) (db : DB) : Schema :=
  default {| schema_name := ""; properties := [] |} (schemaStore.get name db).

Definition noteForm (name title : string) : list records.FormEl :=
  [ {| records.el_prop := "Name"; records.el_control := records.ValueEl name |};
    {| records.el_prop := "Title";
       records.el_control := records.ValueEl title |} ].

Definition save (name : string) (form : list records.FormEl) (db : DB) : DB :=
  final
    (records.btnSaveRecord clock (records.openRecordModal (stored name db))
       form db).

(** A note left blank (id 1), a note with a name and no title (id 2), a
    link to the second note (id 3) and a ticked flag (id 4). *)
Definition db_links : DB :=
  save "Flag"
    [ {| records.el_prop := "Ref";
         records.el_control := records.CheckboxEl true |} ]
    (save "Link"
       [ {| records.el_prop := "Ref";
            records.el_control := records.ValueEl "2" |} ]
       (save "Note" (noteForm "N" "")
          (save "Note" (noteForm "" "") db_notes))).

(** The schema [Flag] edited: its property is a relation to [Note] now. *)
Definition db_retyped : DB :=
  final
    (schema.btnSaveSchema
       (schema.openSchemaModal (schemaStore.get "Flag" db_links)) "Flag"
       (refRows "Relation" "Note") db_links).

End Scenario.

(** A handler succeeded when it ran to its end without a message. *)
Definition succeeded (res : Result) : Prop :=
  alerts res = [] ∧ thrown res = None.

(** The schema an element of an imported array is stored as, when it
    passes the test [sc && sc.name && Array.isArray(sc.properties)] and its
    name is a key. *)
Definition importable (sc : option schema.ImportItem) : option Schema :=
  match sc with
  | Some {| schema.item_name := schema.StringName name;
            schema.item_properties := Some props |} =>
      if String.eqb name "" then None
      else Some {| schema_name := name; properties := props |}
  | _ => None
  end.

(** An element that passes the test and whose name is no key: [put]
    raises on it. *)
Definition raises (sc : option schema.ImportItem) : option string :=
  match sc with
  | Some {| schema.item_name := schema.NoKey message;
            schema.item_properties := Some _ |} => Some message
  | _ => None
  end.

(** One turn of the import loop on an element [put] does not raise on. *)
Definition import_item (db : DB) (sc : option schema.ImportItem) : DB :=
  match importable sc with
  | Some s => schemaStore.put s db
  | None => db
  end.

(** The elements the import loop gets through: those before the first
    one [put] raises on. *)
Fixpoint before_raise (l : list (option schema.ImportItem))
    : list (option schema.ImportItem) :=
  match l with
  | [] => []
  | sc :: rest =>
      match raises sc with
      | Some _ => []
      | None => sc :: before_raise rest
      end
  end.

(** The control bound last to the name [k]. *)
Definition last_control (form : list records.FormEl) (k : string)
    : option records.FormEl :=
  last (List.filter (fun el => String.eqb (records.el_prop el) k) form).

(** A property the mandatory check calls [trim] for. *)
Definition checked (p : Property) : bool :=
  isMandatory p && negb (String.eqb (prop_type p) "Checkbox").

(** The values cell of a row: the entries of the data as they are shown,
    then the automatic fields, with the empty pieces left out. *)
Definition row_text (entries : list string) (r : Rec) : string :=
  join ", "
    (List.filter (fun s => negb (String.eqb s ""))
       (join ", " entries :: records.autoFields r)).



(** An entry of a record's data shown as it is stored. *)
Definition plain_entry (e : string * JsVal) : string :=
  e.1 ++ ": " ++ ToString e.2.

(** A mandatory property that is no check box, paired with a control
    whose value trims to nothing. *)
Definition blank_mandatory (pe : Property * records.FormEl) : bool :=
  isMandatory pe.1 && negb (String.eqb (prop_type pe.1) "Checkbox") &&
  match records.el_control pe.2 with
  | records.ValueEl value => String.eqb (trim value) ""
  | records.CheckboxEl _ => false
  end.

(** [exportSchemas] writes [JSON.stringify(list)] of [schemaStore.getAll()]
    to a file. This is that file as [JSON.parse] reads it back: a stored
    schema is made of strings, booleans and arrays, which JSON writes and
    reads as they are (an unset [relatedSchema] is left out and so read as
    unset). *)
Definition as_item (s : Schema) : option schema.ImportItem :=
  Some {| schema.item_name := schema.StringName (schema_name s);
          schema.item_properties := Some (properties s) |}.

Definition exportSchemas (db : DB) : schema.Parsed :=
  schema.Array (map as_item (schemaStore.getAll db)).

(** Every stored schema has a name that is not empty. *)
Definition named (db : DB) : Prop :=
  map_Forall (fun (name : string) (_ : Schema) => name ≠ "") (schemas db).

(** A handler that stopped at a message: the facts about its result, the
    last of them under assumptions the branch may contradict. *)
Ltac stopped :=
  repeat (split; [first [done | by eexists] |]);
  first [done | by eexists | intros; congruence].

(** * Properties of the JavaScript layer *)
Module JsFacts.
Import Js.

Lemma is_digit_cases (c : ascii) :
  is_digit c = true ->
  In c ["0"; "1"; "2"; "3"; "4"; "5"; "6"; "7"; "8"; "9"]%char.
Proof.
  destruct c as [[|] [|] [|] [|] [|] [|] [|] [|]]; vm_compute;
    intros H; try discriminate H; tauto.
Qed.

(** A digit starts no white-space character. *)
Lemma ws_strip_digit (c : ascii) (r : string) :
  is_digit c = true -> ws_strip (String c r) = None.
Proof.
  intros H. apply is_digit_cases in H. simpl in H.
  repeat (destruct H as [<- | H]; [reflexivity |]). destruct H.
Qed.

Lemma trimStart_digit (c : ascii) (r : string) :
  is_digit c = true -> trimStart (String c r) = String c r.
Proof.
  intros H. unfold trimStart. cbn [String.length trimStart_fuel].
  now rewrite ws_strip_digit.
Qed.

Lemma all_digits_string_of_uint (u : uint) :
  all_digits (NilEmpty.string_of_uint u) = true.
Proof. induction u; cbn [NilEmpty.string_of_uint all_digits]; auto. Qed.

Lemma trimEnd_digits (s : string) : all_digits s = true -> trimEnd s = s.
Proof.
  induction s as [| c r IH]; [reflexivity |].
  cbn [all_digits]. intros [Hc Hr]%andb_prop.
  cbn [trimEnd]. unfold all_ws. rewrite trimStart_digit by assumption.
  cbn [String.eqb]. now rewrite IH.
Qed.

Lemma trim_digits (s : string) : all_digits s = true -> trim s = s.
Proof.
  intros H. unfold trim. destruct s as [| c r]; [reflexivity |].
  cbn [all_digits] in H. apply andb_prop in H as [Hc Hr].
  rewrite trimStart_digit by assumption.
  apply trimEnd_digits. cbn [all_digits]. now rewrite Hc, Hr.
Qed.

Lemma span_digits_all (s : string) :
  all_digits s = true -> span_digits s = (s, EmptyString).
Proof.
  induction s as [| c r IH]; [reflexivity |].
  cbn [all_digits]. intros [Hc Hr]%andb_prop.
  cbn [span_digits]. now rewrite Hc, IH.
Qed.

Lemma append_empty_r (s : string) : (s ++ "")%string = s.
Proof.
  induction s as [| c r IH]; [reflexivity |].
  change (String c (r ++ "")%string = String c r). now f_equal.
Qed.

(** A non-empty string of digits is a decimal literal of its value. *)
Lemma numeric_literal_digits (c : ascii) (r : string) :
  all_digits (String c r) = true ->
  numeric_literal (String c r) =
    Some (false, MVDec (digits_value (String c r)) 0).
Proof.
  intros H. pose proof H as H'. cbn [all_digits] in H'.
  apply andb_prop in H' as [Hc _].
  assert (Hud : unsigned_decimal (String c r) =
                Some (MVDec (digits_value (String c r)) 0)).
  { unfold unsigned_decimal. rewrite (span_digits_all _ H).
    replace (String.eqb (String c r) "Infinity") with false.
    2:{ apply is_digit_cases in Hc. simpl in Hc.
        repeat (destruct Hc as [<- | Hc]; [reflexivity |]). destruct Hc. }
    cbn [String.eqb andb exponent_part String.length].
    now rewrite append_empty_r. }
  unfold numeric_literal. rewrite Hud.
  apply is_digit_cases in Hc. simpl in Hc.
  repeat (destruct Hc as [<- | Hc]; [reflexivity |]). destruct Hc.
Qed.

Lemma round_half_even_1 (a : Z) : round_half_even a 1 = a.
Proof.
  unfold round_half_even. rewrite Z.div_1_r, Z.mod_1_r. reflexivity.
Qed.

(** An integer below 2^53 is a binary64 number: rounding keeps it. *)
Lemma binary64_of_integer (n : Z) :
  0 < n < 2 ^ 53 ->
  number_eq_Z (binary64_of_ratio false n 1) n = true.
Proof.
  intros [Hpos Hlt].
  assert (Hlog : 0 <= Z.log2 n <= 52).
  { split; [apply Z.log2_nonneg |].
    assert (Z.log2 n < 53); [| lia].
    apply Z.log2_lt_pow2; [lia | exact Hlt]. }
  assert (Hle : 2 ^ Z.log2 n <= n) by (apply Z.log2_spec; lia).
  unfold binary64_of_ratio, floor_log2_ratio.
  change (Z.log2 1) with 0. rewrite Z.sub_0_r.
  destruct (Z.leb_spec 0 (Z.log2 n)) as [_ |]; [| lia].
  rewrite Z.mul_1_l.
  destruct (Z.ltb_spec n (2 ^ Z.log2 n)) as [| _]; [lia |].
  rewrite Z.max_l by lia.
  destruct (Z.leb_spec 0 (Z.log2 n - 52)) as [H0 | Hneg].
  - assert (Hex : Z.log2 n - 52 = 0) by lia. rewrite Hex.
    change (2 ^ 0) with 1. rewrite Z.mul_1_l, round_half_even_1.
    rewrite Z.mul_1_r. cbn [andb].
    destruct (Z.leb_spec (2 ^ 1024) n) as [Hbig |].
    + exfalso. assert (2 ^ 53 < 2 ^ 1024) by (apply Z.pow_lt_mono_r; lia). lia.
    + unfold number_eq_Z. cbn [Z.leb Z.compare]. rewrite Z.mul_1_r.
      apply Z.eqb_refl.
  - rewrite round_half_even_1. cbn [andb]. unfold number_eq_Z.
    destruct (Z.leb_spec 0 (Z.log2 n - 52)); [lia |].
    apply Z.eqb_refl.
Qed.

Lemma digits_value_string_of_uint (u : uint) :
  digits_value (NilEmpty.string_of_uint u) = Z.of_uint u.
Proof. unfold digits_value. now rewrite NilEmpty.usu. Qed.

(** The decimal numeral of a positive integer, read back. *)
Lemma decimal_pos (p : positive) :
  exists c r,
    decimal (Z.pos p) = String c r /\
    all_digits (String c r) = true /\
    digits_value (String c r) = Z.pos p.
Proof.
  unfold decimal. cbn [Z.to_int NilZero.string_of_int].
  unfold Pos.to_int, NilZero.string_of_uint.
  pose proof (Unsigned.to_uint_nonnil p) as Hnil.
  pose proof (all_digits_string_of_uint (Pos.to_uint p)) as Hd.
  pose proof (digits_value_string_of_uint (Pos.to_uint p)) as Hv.
  unfold Z.of_uint in Hv. rewrite Unsigned.of_to in Hv. cbn [Z.of_N] in Hv.
  destruct (Pos.to_uint p) eqn:E; try congruence;
    cbn [NilEmpty.string_of_uint] in *; eauto.
Qed.

(** [String(n) == n] for the ids an object store hands out. *)
Lemma StringToNumber_decimal (n : Z) :
  0 < n < 2 ^ 53 ->
  number_eq_Z (StringToNumber (decimal n)) n = true.
Proof.
  intros Hn. destruct n as [| p |]; try lia.
  destruct (decimal_pos p) as (c & r & -> & Hd & Hv).
  unfold StringToNumber. rewrite (trim_digits _ Hd).
  cbn [String.eqb]. rewrite (numeric_literal_digits _ _ Hd), Hv.
  unfold number_of_MV. cbn [Z.eqb Z.leb Z.compare].
  change (10 ^ 0) with 1. rewrite Z.mul_1_r.
  now apply binary64_of_integer.
Qed.

End JsFacts.

(** The conversions on some literals. *)
Module JsExamples.
Import Js.

Example trim_unicode :
  trim (bytes [32; 9; 97; 32; 98; 10; 226; 128; 168]%nat) = "a b".
Proof. reflexivity. Qed.

Example eq_numeral : loose_eq (VNum 5) (VStr "5") = true.
Proof. vm_compute. reflexivity. Qed.

Example eq_padded_exponent : loose_eq (VNum 5) (VStr " 5.0e0 ") = true.
Proof. vm_compute. reflexivity. Qed.

Example eq_hex : loose_eq (VNum 10) (VStr "0xA") = true.
Proof. vm_compute. reflexivity. Qed.

Example eq_rounded :
  loose_eq (VNum 5) (VStr "5.0000000000000000000000001") = true.
Proof. vm_compute. reflexivity. Qed.

Example ne_fraction : loose_eq (VNum 5) (VStr "5.000000000001") = false.
Proof. vm_compute. reflexivity. Qed.

Example eq_tie_to_even :
  loose_eq (VNum 9007199254740992) (VStr "9007199254740993") = true.
Proof. vm_compute. reflexivity. Qed.

Example eq_true_one : loose_eq (VNum 1) (VBool true) = true.
Proof. vm_compute. reflexivity. Qed.

Example eq_empty_zero : loose_eq (VNum 0) (VStr "") = true.
Proof. vm_compute. reflexivity. Qed.

Example number_overflow : StringToNumber "1e400" = Infinity false.
Proof. vm_compute. reflexivity. Qed.

Example number_min_subnormal : StringToNumber "5e-324" = Finite 1 (-1074).
Proof. vm_compute. reflexivity. Qed.

Example number_underflow : StringToNumber "2e-324" = Finite 0 (-1074).
Proof. vm_compute. reflexivity. Qed.

Example number_max :
  StringToNumber "1.7976931348623157e308" = Finite (2 ^ 53 - 1) 971.
Proof. vm_compute. reflexivity. Qed.

Example number_past_max :
  StringToNumber "1.7976931348623159e308" = Infinity false.
Proof. vm_compute. reflexivity. Qed.

Example number_unit : StringToNumber "12px" = NaN.
Proof. vm_compute. reflexivity. Qed.

Example decimal_numerals :
  decimal 42 = "42" /\ decimal 0 = "0" /\ decimal (-7) = "-7".
Proof. vm_compute. auto. Qed.

Example split_options : split_comma "a, b,,c" = ["a"; " b"; ""; "c"].
Proof. vm_compute. reflexivity. Qed.

Example integer_keys_first :
  obj_set (obj_set (obj_set [] "b" (VStr "x")) "10" (VStr "y")) "2" (VStr "z")
  = [("2", VStr "z"); ("10", VStr "y"); ("b", VStr "x")].
Proof. vm_compute. reflexivity. Qed.

Example proto_assignment_swallowed :
  obj_assign [("a", VStr "1")] "__proto__" (VStr "x") = [("a", VStr "1")] /\
  obj_member [("a", VStr "1")] "__proto__" = Inherited "__proto__".
Proof. vm_compute. auto. Qed.

Example constructor_shadowed :
  obj_member [] "constructor" = Inherited "constructor" /\
  obj_assign [] "constructor" (VStr "x") = [("constructor", VStr "x")] /\
  obj_member [("constructor", VStr "x")] "constructor" = Prim (VStr "x").
Proof. vm_compute. auto. Qed.

Example missing_key : obj_member [("a", VStr "1")] "Title" = Prim VUndef.
Proof. vm_compute. reflexivity. Qed.

(** [U+10000] is stored before [U+FFFD], and [z] before both. *)
Example astral_before_private :
  let astral := bytes [240; 144; 128; 128]%nat in
  let replacement := bytes [239; 191; 189]%nat in
  String.leb (utf16_key astral) (utf16_key replacement) = true /\
  String.leb (utf16_key replacement) (utf16_key astral) = false /\
  String.leb (utf16_key "z") (utf16_key astral) = true.
Proof. vm_compute. auto. Qed.

End JsExamples.

(** * Properties of the object stores *)

Section StoreFacts.

Implicit Types (m : gmap Z Rec) (db : DB) (k : Z) (r : Rec).

Lemma elem_of_record_entries m k r :
  (k, r) ∈ record_entries m ↔ m !! k = Some r.
Proof.
  unfold record_entries. rewrite merge_sort_Permutation.
  apply elem_of_map_to_list.
Qed.

Lemma NoDup_record_keys m : NoDup (record_entries m).*1.
Proof.
  unfold record_entries.
  rewrite (merge_sort_Permutation key_le (map_to_list m)).
  apply NoDup_fst_map_to_list.
Qed.

Lemma elem_of_record_keys m k : k ∈ (record_entries m).*1 ↔ is_Some (m !! k).
Proof.
  rewrite list_elem_of_fmap. split.
  - intros ([k' r] & -> & H). apply elem_of_record_entries in H. eauto.
  - intros [r H]. exists (k, r). split; [done |].
    by apply elem_of_record_entries.
Qed.

Lemma elem_of_getAll db r :
  r ∈ recordStore.getAll db ↔ ∃ k, records db !! k = Some r.
Proof.
  unfold recordStore.getAll. rewrite list_elem_of_fmap. split.
  - intros ([k r'] & -> & H). apply elem_of_record_entries in H. eauto.
  - intros [k H]. exists (k, r). split; [done |].
    by apply elem_of_record_entries.
Qed.

Lemma length_getAll db :
  length (recordStore.getAll db) = size (records db).
Proof.
  unfold recordStore.getAll, record_entries.
  rewrite length_fmap, (merge_sort_Permutation key_le (map_to_list _)).
  apply length_map_to_list.
Qed.

(** One pass of a cursor whose body rewrites or deletes the entry under
    the cursor only. *)
Lemma foldl_cursor (body : Z → Rec → gmap Z Rec → gmap Z Rec)
    (f : Rec → option Rec) (ks : list Z) :
  (∀ k v acc, acc !! k = Some v →
     body k v acc = partial_alter (λ _, f v) k acc) →
  NoDup ks →
  ∀ acc j,
    foldl (λ acc k, match acc !! k with
                    | Some v => body k v acc
                    | None => acc
                    end) acc ks !! j
    = if decide (j ∈ ks) then acc !! j ≫= f else acc !! j.
Proof.
  intros Hbody Hnd.
  induction Hnd as [| k ks Hk Hnd IH]; intros acc j; cbn [foldl].
  - rewrite decide_False; [done | set_solver].
  - rewrite IH. destruct (decide (j = k)) as [-> | Hne].
    + rewrite (decide_False (P := k ∈ ks)) by done.
      rewrite (decide_True (P := k ∈ k :: ks)) by (by left).
      destruct (acc !! k) as [v |] eqn:E; cbn; [| by rewrite E].
      by rewrite Hbody, lookup_partial_alter_eq.
    + assert (Hacc : (match acc !! k with
                      | Some v => body k v acc
                      | None => acc
                      end) !! j = acc !! j).
      { destruct (acc !! k) as [v |] eqn:E; [| done].
        by rewrite Hbody, lookup_partial_alter_ne. }
      rewrite Hacc.
      destruct (decide (j ∈ ks)) as [Hin | Hin].
      * by rewrite decide_True by (by right).
      * by rewrite decide_False by (by intros [? | ?]%elem_of_cons).
Qed.

Lemma cursor_omap body (f : Rec → option Rec) m :
  (∀ k v acc, acc !! k = Some v →
     body k v acc = partial_alter (λ _, f v) k acc) →
  recordStore.cursor body m = omap f m.
Proof.
  intros Hbody. apply map_eq. intros j. unfold recordStore.cursor.
  rewrite (foldl_cursor body f _ Hbody (NoDup_record_keys m)), lookup_omap.
  case_decide as Hin; [done |].
  rewrite elem_of_record_keys in Hin.
  destruct (m !! j) eqn:E; [| done]. destruct Hin. eauto.
Qed.

(** The rename loop maps [rename_in] over the record store. *)
Lemma renameSchema_records oldName newName db :
  records (recordStore.renameSchema oldName newName db)
  = rename_in oldName newName <$> records db.
Proof.
  unfold recordStore.renameSchema. cbn [records set_records].
  rewrite (cursor_omap _ (λ v, Some (rename_in oldName newName v))).
  - apply map_eq. intros j. rewrite lookup_omap, lookup_fmap.
    by destruct (records db !! j).
  - intros k v acc Hk. unfold rename_in.
    destruct (String.eqb (rec_schema v) oldName); [done |].
    change (acc = <[k := v]> acc). symmetry. by apply insert_id.
Qed.

(** The delete loop keeps the records of the other schemas. *)
Lemma deleteBySchema_records name db j :
  records (recordStore.deleteBySchema name db) !! j
  = r ← records db !! j;
    if String.eqb (rec_schema r) name then None else Some r.
Proof.
  unfold recordStore.deleteBySchema. cbn [records set_records].
  rewrite (cursor_omap _
    (λ v, if String.eqb (rec_schema v) name then None else Some v)).
  - by rewrite lookup_omap.
  - intros k v acc Hk.
    destruct (String.eqb (rec_schema v) name); [done |].
    change (acc = <[k := v]> acc). symmetry. by apply insert_id.
Qed.

End StoreFacts.

(** * The scenario, evaluated *)
Module ScenarioFacts.
Import Scenario.

Example task_schema_saved :
  schemaStore.get "Task" db_schemas =
  Some {| schema_name := "Task";
          properties :=
            [ {| prop_name := "Title"; prop_type := "Title";
                 prop_options := []; isMandatory := true;
                 relatedSchema := None |};
              {| prop_name := "Priority"; prop_type := "Select";
                 prop_options := ["Low"; "High"]; isMandatory := false;
                 relatedSchema := None |} ] |}.
Proof. vm_compute. reflexivity. Qed.

Example task_record_saved :
  records db_task !! 1 =
  Some {| rec_id := Some 1; rec_schema := "Task";
          rec_data := [("Title", VStr "Ship spec"); ("Priority", VStr "High")];
          createdAt := 1700000000000;
          createdTime := "t1700000000000"; createdBy := "Admin";
          lastEditedTime := "t1700000000000"; lastEditedBy := "Admin" |}.
Proof. vm_compute. reflexivity. Qed.

Example project_row_resolved :
  records.row_vals <$> records.renderRecordTable db_project =
  [ "Title: Ship spec, Priority: High, Oluşturulma: t1700000000000, Oluşturan: Admin, Son Düzenleme: t1700000000000, Son Düzenleyen: Admin";
    "Name: Launch, Task: Ship spec, Oluşturulma: t1700000000000, Oluşturan: Admin, Son Düzenleme: t1700000000000, Son Düzenleyen: Admin" ].
Proof. vm_compute. reflexivity. Qed.

Example project_row_dangling :
  records.row_vals <$> records.renderRecordTable db_dangling =
  [ "Name: Launch, Task: Silinmiş Kayıt (#1), Oluşturulma: t1700000000000, Oluşturan: Admin, Son Düzenleme: t1700000000000, Son Düzenleyen: Admin" ].
Proof. vm_compute. reflexivity. Qed.

End ScenarioFacts.

Section SchemaStoreFacts.

Implicit Types (db : DB) (s : Schema) (name : string).

Lemma elem_of_schema_entries (m : gmap string Schema) name s :
  (name, s) ∈ schema_entries m ↔ m !! name = Some s.
Proof.
  unfold schema_entries. rewrite merge_sort_Permutation.
  apply elem_of_map_to_list.
Qed.

Lemma elem_of_schema_getAll db s :
  s ∈ schemaStore.getAll db ↔ ∃ name, schemas db !! name = Some s.
Proof.
  unfold schemaStore.getAll. rewrite list_elem_of_fmap. split.
  - intros ([name s'] & -> & H). apply elem_of_schema_entries in H. eauto.
  - intros [name H]. exists (name, s). split; [done |].
    by apply elem_of_schema_entries.
Qed.

End SchemaStoreFacts.

Lemma filter_nil {A : Type} (f : A → bool) (l : list A) :
  (∀ x, x ∈ l → f x = false) → List.filter f l = [].
Proof.
  induction l as [| a l IH]; intros H; [done |]. cbn.
  rewrite (H a) by (by left). apply IH. intros x Hx. apply H. by right.
Qed.

Lemma eqb_false_iff (a b : string) : String.eqb a b = false ↔ a ≠ b.
Proof. apply String.eqb_neq. Qed.

(** The records of the other schemas survive the delete loop as they are. *)
Lemma deleteBySchema_frame (name : string) (db : DB) (k : Z) (r : Rec) :
  records db !! k = Some r → rec_schema r ≠ name →
  records (recordStore.deleteBySchema name db) !! k = Some r.
Proof.
  intros Hk Hne. rewrite deleteBySchema_records, Hk. cbn.
  by apply eqb_false_iff in Hne as ->.
Qed.

Lemma records_put (s : Schema) (db : DB) :
  records (schemaStore.put s db) = records db.
Proof. reflexivity. Qed.

Lemma records_delete (name : string) (db : DB) :
  records (schemaStore.delete name db) = records db.
Proof. reflexivity. Qed.

Lemma schemas_put (s : Schema) (db : DB) :
  schemas (schemaStore.put s db) = <[schema_name s := s]> (schemas db).
Proof. reflexivity. Qed.

Lemma schemas_delete (name : string) (db : DB) :
  schemas (schemaStore.delete name db) = delete name (schemas db).
Proof. reflexivity. Qed.

Lemma schemas_renameSchema (oldName newName : string) (db : DB) :
  schemas (recordStore.renameSchema oldName newName db) = schemas db.
Proof. reflexivity. Qed.

Lemma schemas_deleteBySchema (name : string) (db : DB) :
  schemas (recordStore.deleteBySchema name db) = schemas db.
Proof. reflexivity. Qed.

(** * The invariants hold in every state the handlers reach *)
Section Invariants.

Implicit Types (db : DB) (r : Rec) (s : Schema).

Lemma wf_openDB : wf openDB.
Proof.
  unfold wf, openDB. cbn. split; [| split]; [apply map_Forall_empty .. | lia].
Qed.

Lemma wf_put s db : wf db → wf (schemaStore.put s db).
Proof.
  intros (Hs & Hr & Hg). split; [| split]; [| done ..].
  rewrite schemas_put. by apply map_Forall_insert_2.
Qed.

Lemma wf_delete name db : wf db → wf (schemaStore.delete name db).
Proof.
  intros (Hs & Hr & Hg). split; [| split]; [| done ..].
  rewrite schemas_delete. by apply map_Forall_delete.
Qed.

Lemma wf_renameSchema oldName newName db :
  wf db → wf (recordStore.renameSchema oldName newName db).
Proof.
  intros (Hs & Hr & Hg). split; [| split]; [done | | done].
  rewrite renameSchema_records. apply map_Forall_fmap.
  eapply map_Forall_impl; [exact Hr |]. intros k r [Hid Hk]. cbn.
  split; [| done]. unfold rename_in. by destruct (String.eqb _ _).
Qed.

Lemma wf_deleteBySchema name db :
  wf db → wf (recordStore.deleteBySchema name db).
Proof.
  intros (Hs & Hr & Hg). split; [| split]; [done | | done].
  apply map_Forall_lookup. intros k r Hk.
  rewrite deleteBySchema_records in Hk.
  destruct (records db !! k) as [r0 |] eqn:E; [| done]. cbn in Hk.
  destruct (String.eqb _ _); [done |]. injection Hk as <-.
  by apply (map_Forall_lookup_1 _ _ _ _ Hr E).
Qed.

Lemma wf_deleteRecordById id db : wf db → wf (records.deleteRecordById id db).
Proof.
  intros (Hs & Hr & Hg). split; [| split]; [done | | done].
  cbn. by apply map_Forall_delete.
Qed.

(** A new record takes the next key; a record with an [id] is put back
    under it. *)
Lemma wf_add r db :
  wf db → (∀ k, rec_id r = Some k → 0 < k) → wf (recordStore.add r db).
Proof.
  intros (Hs & Hr & Hg) Hpos. unfold recordStore.add.
  destruct (rec_id r) as [k |] eqn:E; (split; [| split]); cbn; try done.
  - apply map_Forall_insert_2.
    + specialize (Hpos k eq_refl). split; [done | lia].
    + eapply map_Forall_impl; [exact Hr |]. cbn. intros; intuition lia.
  - lia.
  - apply map_Forall_insert_2.
    + split; [done | lia].
    + eapply map_Forall_impl; [exact Hr |]. cbn. intros; intuition lia.
  - lia.
Qed.

Lemma wf_id db k r : wf db → records db !! k = Some r → rec_id r = Some k.
Proof. intros (_ & Hr & _) Hk. by apply (map_Forall_lookup_1 _ _ _ _ Hr Hk). Qed.

Lemma wf_name db name s :
  wf db → schemas db !! name = Some s → schema_name s = name.
Proof. intros (Hs & _) Hk. by apply (map_Forall_lookup_1 _ _ _ _ Hs Hk). Qed.

End Invariants.

(** * Looking a record up by its id *)
Section Find.

Lemma find_unique {A : Type} (f : A → bool) (l : list A) (x : A) :
  x ∈ l → f x = true → (∀ y, y ∈ l → f y = true → y = x) →
  List.find f l = Some x.
Proof.
  induction l as [| a l IH]; intros Hin Hfx Huniq; [by inversion Hin |].
  cbn. destruct (f a) eqn:Ea.
  - f_equal. apply Huniq; [by left | done].
  - apply IH; [| done |].
    + apply elem_of_cons in Hin as [-> | Hin]; [congruence | done].
    + intros y Hy. apply Huniq. by right.
Qed.

Lemma find_absent {A : Type} (f : A → bool) (l : list A) :
  (∀ y, y ∈ l → f y = false) → List.find f l = None.
Proof.
  induction l as [| a l IH]; intros H; [done |]. cbn.
  rewrite (H a) by (by left). apply IH. intros y Hy. apply H. by right.
Qed.

Lemma find_by_id (db : DB) (id : Z) (r : Rec) :
  wf db → records db !! id = Some r →
  List.find (fun r => bool_decide (rec_id r = Some id)) (recordStore.all db)
  = Some r.
Proof.
  intros Hwf Hid. apply find_unique.
  - apply elem_of_getAll. eauto.
  - apply bool_decide_eq_true. by eapply wf_id.
  - intros y [k Hk]%elem_of_getAll Hy%bool_decide_eq_true.
    rewrite (wf_id _ _ _ Hwf Hk) in Hy. injection Hy as ->. congruence.
Qed.

Lemma find_by_id_absent (db : DB) (id : Z) :
  wf db → records db !! id = None →
  List.find (fun r => bool_decide (rec_id r = Some id)) (recordStore.all db)
  = None.
Proof.
  intros Hwf Hid. apply find_absent.
  intros y [k Hk]%elem_of_getAll. apply bool_decide_eq_false.
  rewrite (wf_id _ _ _ Hwf Hk). intros [= ->]. congruence.
Qed.

End Find.

(** * The order in which the record store lists its entries *)
Section StoreOrder.

#[local] Instance key_le_trans : Transitive (@key_le Rec).
Proof. intros a b c. unfold key_le. lia. Qed.

#[local] Instance key_le_total : Total (@key_le Rec).
Proof. intros a b. unfold key_le. lia. Qed.

#[local] Instance key_lt_antisymm :
  AntiSymm (=) (fun a b : Z * Rec => a.1 < b.1).
Proof. intros a b ? ?. lia. Qed.





End StoreOrder.

Section HandlerInvariants.

Lemma wf_updateRecord (id : Z) (u : records.UpdatedFields) (db : DB) :
  wf db → wf (final (records.updateRecord id u db)).
Proof.
  intros Hwf. unfold records.updateRecord.
  destruct (List.find _ _) as [target |] eqn:E; [| done]. cbn [final done_].
  apply wf_add; [done |]. cbn. intros k Hk.
  apply find_some in E as [Hin _].
  apply list_elem_of_In, elem_of_getAll in Hin as [k' Hk'].
  destruct Hwf as (_ & Hr & _).
  pose proof (map_Forall_lookup_1 _ _ _ _ Hr Hk') as [Hid ?].
  rewrite Hid in Hk. injection Hk as <-. lia.
Qed.

Lemma wf_btnSaveRecord (clock : Clock) (st : records.State)
    (form : list records.FormEl) (db : DB) :
  wf db → wf (final (records.btnSaveRecord clock st form db)).
Proof.
  intros Hwf. unfold records.btnSaveRecord.
  destruct (records.activeSchema st); [| done].
  destruct (records.missingFields _ _); [| done].
  destruct (negb _); [done |].
  destruct (records.editMode st), (records.editingRecordId st);
    try (by apply wf_updateRecord); by apply wf_add.
Qed.

Lemma wf_btnSaveSchema (st : schema.State) (schemaName : string)
    (rows : list schema.PropRow) (db : DB) :
  wf db → wf (final (schema.btnSaveSchema st schemaName rows db)).
Proof.
  intros Hwf. unfold schema.btnSaveSchema.
  repeat (case_match; try done); cbn [final done_];
    auto using wf_put, wf_delete, wf_renameSchema.
Qed.

Lemma wf_deleteSchemaFlow (name : string) (c1 c2 : bool) (db : DB) :
  wf db → wf (schema.deleteSchemaFlow name c1 c2 db).
Proof.
  intros Hwf. unfold schema.deleteSchemaFlow.
  destruct c1, c2; cbn; auto using wf_delete, wf_deleteBySchema.
Qed.

Lemma wf_deleteRecord (id : Z) (c : bool) (db : DB) :
  wf db → wf (records.deleteRecord id c db).
Proof. destruct c; cbn; auto using wf_deleteRecordById. Qed.

(** The import loop ends with the stores its turns before the first
    [DataError] made. *)
Lemma final_import_loop (l : list (option schema.ImportItem)) (db : DB) :
  final (schema.import_loop l db) = foldl import_item db (before_raise l).
Proof.
  revert db. induction l as [| sc l IH]; intros db; [done |].
  destruct sc as [[[| name | message] [props |]] |];
    cbn [schema.import_loop before_raise raises foldl]; try apply IH; try done.
  unfold import_item at 2. cbn [importable].
  destruct (String.eqb name ""); apply IH.
Qed.

Lemma final_importSchemas (file : option schema.Parsed) (db : DB) :
  ∃ l, final (schema.importSchemas file db) = foldl import_item db l.
Proof.
  destruct file as [[| | l] |]; try by exists [].
  exists (before_raise l). apply final_import_loop.
Qed.

Lemma wf_import_item (sc : option schema.ImportItem) (db : DB) :
  wf db → wf (import_item db sc).
Proof.
  intros Hwf. unfold import_item. destruct (importable sc); auto using wf_put.
Qed.

Lemma wf_importSchemas (file : option schema.Parsed) (db : DB) :
  wf db → wf (final (schema.importSchemas file db)).
Proof.
  intros Hwf. destruct (final_importSchemas file db) as [l ->].
  revert db Hwf. induction l as [| sc l IH]; intros db Hwf; [done |].
  cbn. by apply IH, wf_import_item.
Qed.

Lemma wf_db_project : wf Scenario.db_project.
Proof.
  unfold Scenario.db_project. apply wf_btnSaveRecord.
  unfold Scenario.db_task. apply wf_btnSaveRecord.
  unfold Scenario.db_schemas. do 2 apply wf_btnSaveSchema.
  exact wf_openDB.
Qed.

(** Every state the interface reaches satisfies the invariants. *)
Lemma reachable_wf (db : DB) : reachable db → wf db.
Proof.
  induction 1 as [| db db' _ IH Hstep]; [exact wf_openDB |].
  destruct Hstep;
    auto using wf_btnSaveSchema, wf_deleteSchemaFlow, wf_importSchemas,
      wf_btnSaveRecord, wf_deleteRecord.
Qed.

Lemma reachable_db_project : reachable Scenario.db_project.
Proof.
  unfold Scenario.db_project.
  eapply reachable_step; [| apply step_saveRecord].
  unfold Scenario.db_task.
  eapply reachable_step; [| apply step_saveRecord].
  unfold Scenario.db_schemas.
  do 2 (eapply reachable_step; [| apply step_saveSchema]).
  exact reachable_open.
Qed.

(** So is the state with the schema whose check box shares its name with
    a mandatory text: the schema form saves it. *)
Lemma reachable_db_clash : reachable Scenario.db_clash.
Proof.
  unfold Scenario.db_clash.
  eapply reachable_step; [| apply step_saveSchema].
  unfold Scenario.db_clash1.
  eapply reachable_step; [| apply step_saveRecord].
  unfold Scenario.db_clash0.
  eapply reachable_step; [| apply step_saveSchema].
  exact reachable_db_project.
Qed.

End HandlerInvariants.

(** * Resolving a relation value to a record *)
Section Resolve.

Lemma number_eq_Z_inj (x : JsNumber) (a b : Z) :
  number_eq_Z x a = true → number_eq_Z x b = true → a = b.
Proof.
  destruct x as [| |m e]; cbn; try discriminate.
  destruct (Z.leb_spec 0 e) as [He | He]; intros Ha%Z.eqb_eq Hb%Z.eqb_eq.
  - congruence.
  - assert (0 < 2 ^ (- e)) by (apply Z.pow_pos_nonneg; lia). nia.
Qed.


(** A value is loosely equal to one number at most. *)
Lemma loose_eq_number_inj (a b : Z) (v : JsVal) :
  loose_eq (VNum a) v = true → loose_eq (VNum b) v = true → a = b.
Proof.
  destruct v as [| c | c | s]; cbn; try discriminate.
  - intros ?%Z.eqb_eq ?%Z.eqb_eq. congruence.
  - intros ?%Z.eqb_eq ?%Z.eqb_eq. congruence.
  - apply number_eq_Z_inj.
Qed.

Lemma insert_desc_perm (r : Rec) (l : list Rec) :
  records.insert_desc r l ≡ₚ r :: l.
Proof.
  induction l as [| y l IH]; [done |]. cbn.
  destruct (createdAt y <=? createdAt r); [done |].
  rewrite IH. apply Permutation_swap.
Qed.

Lemma sort_desc_perm (l : list Rec) : records.sort_desc l ≡ₚ l.
Proof.
  induction l as [| r l IH]; [done |]. cbn.
  by rewrite insert_desc_perm, IH.
Qed.

Lemma elem_of_sort_desc (l : list Rec) (x : Rec) :
  x ∈ records.sort_desc l ↔ x ∈ l.
Proof. by rewrite sort_desc_perm. Qed.

(** The lookup of [renderRecordTable] finds the record a value matches:
    ids are keys, so no second record matches. *)
Lemma resolve_match (db : DB) (v : JsVal) (target : Rec) :
  wf db →
  target ∈ recordStore.all db →
  loose_eq (records.id_val target) v = true →
  List.find (fun rec => loose_eq (records.id_val rec) v)
    (records.sort_desc (recordStore.all db)) = Some target.
Proof.
  intros Hwf Hin Hv. apply find_unique.
  - by apply elem_of_sort_desc.
  - done.
  - intros y Hy Hyv. rewrite elem_of_sort_desc in Hy.
    apply elem_of_getAll in Hin as [k Hk].
    apply elem_of_getAll in Hy as [j Hj].
    pose proof (wf_id _ _ _ Hwf Hk) as Hidk.
    pose proof (wf_id _ _ _ Hwf Hj) as Hidj.
    unfold records.id_val in Hv, Hyv. rewrite Hidk in Hv. rewrite Hidj in Hyv.
    assert (j = k) as -> by (by eapply loose_eq_number_inj).
    congruence.
Qed.

Lemma resolve_miss (db : DB) (v : JsVal) :
  (∀ rec, rec ∈ recordStore.all db →
          loose_eq (records.id_val rec) v = false) →
  List.find (fun rec => loose_eq (records.id_val rec) v)
    (records.sort_desc (recordStore.all db)) = None.
Proof.
  intros H. apply find_absent. intros y Hy.
  rewrite elem_of_sort_desc in Hy. by apply H.
Qed.

(** The record with the id [n] is the one the numeral of [n] matches. *)
Lemma loose_eq_decimal_id (n : Z) :
  0 < n < 2 ^ 53 → loose_eq (VNum n) (VStr (decimal n)) = true.
Proof. intros Hn. cbn. by apply JsFacts.StringToNumber_decimal. Qed.

End Resolve.

(** * Objects: own properties and the prototype *)
Section Objects.

Lemma obj_get_set (o : JsObject) (k j : string) (v : JsVal) :
  obj_get (obj_set o k v) j = if String.eqb k j then v else obj_get o j.
Proof.
  induction o as [| [k' v'] o IH]; cbn; [done |].
  destruct (String.eqb k' k) eqn:Ek.
  - apply String.eqb_eq in Ek as ->. cbn. by destruct (String.eqb k j).
  - destruct (key_before k k' && _); cbn.
    + by destruct (String.eqb k j).
    + rewrite IH. destruct (String.eqb k j) eqn:Ej; [| done].
      apply String.eqb_eq in Ej as <-. by rewrite Ek.
Qed.

Lemma has_own_elem (o : JsObject) (k : string) :
  has_own o k = true ↔ k ∈ o.*1.
Proof.
  unfold has_own. rewrite existsb_exists. split.
  - intros ([k' v] & Hin & Heq). cbn in Heq. apply String.eqb_eq in Heq as <-.
    apply list_elem_of_fmap.
    exists (k', v). split; [done | by apply list_elem_of_In].
  - intros ([k' v] & -> & Hin)%list_elem_of_fmap. exists (k', v).
    split; [by apply list_elem_of_In | apply String.eqb_refl].
Qed.

Lemma obj_get_absent (o : JsObject) (k : string) :
  has_own o k = false → obj_get o k = VUndef.
Proof.
  induction o as [| [k' v] o IH]; [done |]. cbn.
  destruct (String.eqb k' k); [done | exact IH].
Qed.

Lemma elem_of_obj_set_keys (o : JsObject) (k j : string) (v : JsVal) :
  j ∈ (obj_set o k v).*1 ↔ j = k ∨ j ∈ o.*1.
Proof.
  induction o as [| [k' v'] o IH]; cbn.
  - rewrite list_elem_of_singleton. split; [by left | intros [? | H]; [done | inversion H]].
  - destruct (String.eqb k' k) eqn:Ek.
    + apply String.eqb_eq in Ek as ->. cbn. rewrite !elem_of_cons. tauto.
    + destruct (key_before k k' && _); cbn.
      * rewrite !elem_of_cons. tauto.
      * rewrite !elem_of_cons, IH. tauto.
Qed.

Lemma has_own_set (o : JsObject) (k j : string) (v : JsVal) :
  has_own (obj_set o k v) j = String.eqb k j || has_own o j.
Proof.
  apply eq_true_iff_eq.
  rewrite orb_true_iff, !has_own_elem, elem_of_obj_set_keys, String.eqb_eq.
  intuition congruence.
Qed.

(** Assigning a property never makes a key appear twice. *)
Lemma obj_set_NoDup (o : JsObject) (k : string) (v : JsVal) :
  NoDup o.*1 → NoDup (obj_set o k v).*1.
Proof.
  induction o as [| [k' v'] o IH]; intros Hnd; cbn.
  - apply NoDup_singleton.
  - apply NoDup_cons in Hnd as [Hk' Hnd].
    destruct (String.eqb k' k) eqn:Ek.
    + apply String.eqb_eq in Ek as ->. cbn. by apply NoDup_cons.
    + apply eqb_false_iff in Ek.
      destruct (key_before k k' && _) eqn:Eb; cbn.
      * apply andb_prop in Eb as [_ Hnot%negb_true_iff].
        apply NoDup_cons. split; [| by apply NoDup_cons].
        rewrite elem_of_cons. intros [-> | Hin]; [done |].
        apply has_own_elem in Hin. unfold has_own in Hin. congruence.
      * apply NoDup_cons. split; [| by apply IH].
        rewrite elem_of_obj_set_keys. intros [-> | Hin]; done.
Qed.




Lemma collect_snoc (form : list records.FormEl) (el : records.FormEl) :
  records.collect (form ++ [el]) =
  obj_assign (records.collect form) (records.el_prop el)
    (records.control_value (records.el_control el)).
Proof. unfold records.collect. by rewrite foldl_app. Qed.

(** The collected object never has [__proto__] for a property of its
    own. *)
Lemma collect_no_proto (form : list records.FormEl) :
  has_own (records.collect form) "__proto__" = false.
Proof.
  induction form as [| el form IH] using rev_ind; [done |].
  rewrite collect_snoc. unfold obj_assign.
  destruct (String.eqb (records.el_prop el) "__proto__") eqn:E.
  - apply String.eqb_eq in E. by rewrite E, IH.
  - cbn [andb]. by rewrite has_own_set, E, IH.
Qed.

Lemma collect_step (form : list records.FormEl) (el : records.FormEl) :
  records.collect (form ++ [el]) =
  if String.eqb (records.el_prop el) "__proto__" then records.collect form
  else obj_set (records.collect form) (records.el_prop el)
         (records.control_value (records.el_control el)).
Proof.
  rewrite collect_snoc. unfold obj_assign.
  destruct (String.eqb (records.el_prop el) "__proto__") eqn:E; [| done].
  apply String.eqb_eq in E. by rewrite E, collect_no_proto.
Qed.

Lemma filter_snoc {A : Type} (f : A → bool) (l : list A) (x : A) :
  List.filter f (l ++ [x])%list
  = (List.filter f l ++ (if f x then [x] else []))%list.
Proof. rewrite List.filter_app. cbn. by destruct (f x). Qed.

Lemma last_control_snoc (form : list records.FormEl) (el : records.FormEl)
    (k : string) :
  last_control (form ++ [el]) k =
  if String.eqb (records.el_prop el) k then Some el else last_control form k.
Proof.
  unfold last_control. rewrite filter_snoc.
  destruct (String.eqb (records.el_prop el) k).
  - by rewrite last_snoc.
  - by rewrite app_nil_r.
Qed.

Lemma obj_get_collect (form : list records.FormEl) (k : string) :
  obj_get (records.collect form) k =
    if String.eqb k "__proto__" then VUndef
    else
      match last_control form k with
      | Some el => records.control_value (records.el_control el)
      | None => VUndef
      end.
Proof.
  destruct (String.eqb k "__proto__") eqn:Ek.
  { apply String.eqb_eq in Ek as ->.
    apply obj_get_absent, collect_no_proto. }
  induction form as [| el form IH] using rev_ind; [done |].
  rewrite collect_step, last_control_snoc.
  destruct (String.eqb (records.el_prop el) "__proto__") eqn:E.
  - apply String.eqb_eq in E. rewrite E, String.eqb_sym, Ek. exact IH.
  - rewrite obj_get_set. by destruct (String.eqb (records.el_prop el) k).
Qed.

Lemma has_own_collect (form : list records.FormEl) (k : string) :
  has_own (records.collect form) k =
  negb (String.eqb k "__proto__") && bool_decide (is_Some (last_control form k)).
Proof.
  destruct (String.eqb k "__proto__") eqn:Ek.
  { apply String.eqb_eq in Ek as ->. apply collect_no_proto. }
  cbn [negb andb].
  induction form as [| el form IH] using rev_ind.
  { reflexivity. }
  rewrite collect_step, last_control_snoc.
  destruct (String.eqb (records.el_prop el) "__proto__") eqn:E.
  - apply String.eqb_eq in E. by rewrite E, String.eqb_sym, Ek.
  - rewrite has_own_set. destruct (String.eqb (records.el_prop el) k); [| done].
    symmetry. apply bool_decide_eq_true. by eexists.
Qed.

Lemma collect_NoDup (form : list records.FormEl) :
  NoDup (records.collect form).*1.
Proof.
  induction form as [| el form IH] using rev_ind; [constructor |].
  rewrite collect_step. destruct (String.eqb _ _); [done |].
  by apply obj_set_NoDup.
Qed.

(** What the handler reads under a name in the collected object. *)
Lemma obj_member_collect (form : list records.FormEl) (k : string) :
  obj_member (records.collect form) k =
    if String.eqb k "__proto__" then Inherited k
    else
      match last_control form k with
      | Some el => Prim (records.control_value (records.el_control el))
      | None => if inherited k then Inherited k else Prim VUndef
      end.
Proof.
  unfold obj_member. rewrite has_own_collect, obj_get_collect.
  destruct (String.eqb k "__proto__") eqn:Ek.
  { apply String.eqb_eq in Ek as ->. reflexivity. }
  cbn [negb andb]. destruct (last_control form k) as [el |].
  - by rewrite bool_decide_eq_true_2.
  - rewrite bool_decide_eq_false_2 by (by intros [? ?]).
    cbn [orb]. by destruct (inherited k).
Qed.

End Objects.

(** * The mandatory check of the record form *)
Section Mandatory.

Lemma filter_unique {A : Type} (f : A → string) (l : list A) (x : A) :
  NoDup (f <$> l) → x ∈ l →
  List.filter (fun y => String.eqb (f y) (f x)) l = [x].
Proof.
  induction l as [| a l IH]; intros Hnd Hin; [by inversion Hin |].
  cbn in Hnd. apply NoDup_cons in Hnd as [Ha Hnd]. cbn.
  apply elem_of_cons in Hin as [-> | Hin].
  - rewrite String.eqb_refl. f_equal. apply filter_nil.
    intros y Hy. apply eqb_false_iff. intros Heq. apply Ha.
    apply list_elem_of_fmap. exists y. by rewrite Heq.
  - destruct (String.eqb (f a) (f x)) eqn:E; [| by apply IH].
    apply String.eqb_eq in E. destruct Ha.
    apply list_elem_of_fmap. exists x. by rewrite E.
Qed.

Lemma zip_fmap_eq {A B C : Type} (g : B → C) (h : A → C) (l1 : list A)
    (l2 : list B) :
  g <$> l2 = h <$> l1 → ∀ a b, (a, b) ∈ zip l1 l2 → g b = h a.
Proof.
  revert l2. induction l1 as [| x l1 IH]; intros [| y l2] Heq a b Hin;
    try (by inversion Hin); try discriminate.
  cbn in Heq. injection Heq as Hxy Heq.
  cbn in Hin. apply elem_of_cons in Hin as [[= -> ->] | Hin]; [done |].
  by eapply IH.
Qed.

Lemma form_of_names (schema : Schema) (form : list records.FormEl) :
  records.form_of schema form →
  records.el_prop <$> form = prop_name <$> properties schema.
Proof.
  intros [_ Hform]. apply (f_equal (fmap fst)) in Hform.
  by rewrite <- !list_fmap_compose in Hform.
Qed.

(** With distinct names every property reads the state of its own
    control, but a property named [__proto__]. *)
Lemma value_at (schema : Schema) (form : list records.FormEl)
    (p : Property) (el : records.FormEl) :
  records.form_of schema form →
  NoDup (prop_name <$> properties schema) →
  (p, el) ∈ zip (properties schema) form →
  obj_member (records.collect form) (prop_name p)
    = (if String.eqb (prop_name p) "__proto__" then Inherited (prop_name p)
       else Prim (records.control_value (records.el_control el))) ∧
  records.is_checkbox (records.el_control el)
    = String.eqb (prop_type p) "Checkbox".
Proof.
  intros Hform Hnd Hin.
  pose proof (zip_fmap_eq _ _ _ _ (proj2 Hform) _ _ Hin) as [= Hname Hcb].
  split; [| done].
  rewrite obj_member_collect. destruct (String.eqb _ "__proto__"); [done |].
  unfold last_control.
  rewrite <- Hname, filter_unique; [done | by rewrite (form_of_names schema) |].
  by eapply elem_of_zip_r.
Qed.

Lemma is_missing_at (data : JsObject) (p : Property) (el : records.FormEl) :
  obj_member data (prop_name p)
    = Prim (records.control_value (records.el_control el)) →
  records.is_checkbox (records.el_control el)
    = String.eqb (prop_type p) "Checkbox" →
  records.is_missing data p = Some (blank_mandatory (p, el)).
Proof.
  intros Hv Hcb. unfold records.is_missing, blank_mandatory. cbn [fst snd].
  destruct (isMandatory p); [| done]. rewrite Hv, <- Hcb.
  destruct (records.el_control el) as [b | s]; [done |]. cbn.
  destruct (String.eqb s "") eqn:E; [| done].
  by apply String.eqb_eq in E as ->.
Qed.

Lemma missingFields_zip (data : JsObject) (ps : list Property)
    (fs : list records.FormEl) :
  length ps = length fs →
  (∀ p el, (p, el) ∈ zip ps fs →
           records.is_missing data p = Some (blank_mandatory (p, el))) →
  records.missingFields data ps
  = Some (prop_name <$> (List.filter blank_mandatory (zip ps fs)).*1).
Proof.
  revert fs. induction ps as [| p ps IH]; intros [| el fs] Hlen H;
    try discriminate; [done |].
  cbn. rewrite (H p el) by (by left).
  rewrite (IH fs); [| by injection Hlen | intros q e Hq; apply H; by right].
  by destruct (blank_mandatory (p, el)).
Qed.

(** One test that throws ends the check. *)
Lemma missingFields_throws (data : JsObject) (props : list Property)
    (p : Property) :
  p ∈ props → records.is_missing data p = None →
  records.missingFields data props = None.
Proof.
  induction props as [| q ps IH]; intros Hin Hp; [by inversion Hin |].
  cbn. apply elem_of_cons in Hin as [<- | Hin]; [by rewrite Hp |].
  destruct (records.is_missing data q); [| done]. by rewrite IH.
Qed.

(** A checked property named [__proto__] reads [Object.prototype], which
    has no [trim]. *)
Lemma is_missing_proto (form : list records.FormEl) (p : Property) :
  checked p = true → prop_name p = "__proto__" →
  records.is_missing (records.collect form) p = None.
Proof.
  unfold checked, records.is_missing.
  intros [-> Ht%negb_true_iff]%andb_prop Hname.
  by rewrite Ht, obj_member_collect, Hname.
Qed.

(** The exact list of the check, when the names are distinct and none of
    the checked properties is named [__proto__]. *)
Lemma missingFields_exact (schema : Schema) (form : list records.FormEl) :
  records.form_of schema form →
  NoDup (prop_name <$> properties schema) →
  (∀ p, p ∈ properties schema → checked p = true →
        prop_name p ≠ "__proto__") →
  records.missingFields (records.collect form) (properties schema)
  = Some (prop_name <$>
            (List.filter blank_mandatory (zip (properties schema) form)).*1).
Proof.
  intros Hform Hnd Hproto. apply missingFields_zip.
  - destruct Hform as [_ Hform].
    apply (f_equal length) in Hform. by rewrite !length_map in Hform.
  - intros p el Hin.
    destruct (value_at _ _ _ _ Hform Hnd Hin) as [Hv Hcb].
    destruct (String.eqb (prop_name p) "__proto__") eqn:E.
    + apply String.eqb_eq in E.
      destruct (checked p) eqn:Ec.
      { exfalso. eapply Hproto; [by eapply elem_of_zip_l | done | done]. }
      unfold records.is_missing, blank_mandatory, checked in *. cbn [fst snd].
      destruct (isMandatory p); [| done]. cbn [andb] in *.
      apply negb_false_iff in Ec. by rewrite Ec.
    + by apply is_missing_at.
Qed.

(** A mandatory property that is no check box and whose collected value
    trims to nothing is on the list, when the check gets to make one. *)
Lemma missingFields_lists (data : JsObject) (props : list Property)
    (p : Property) (s : string) (missing : list string) :
  p ∈ props →
  isMandatory p = true →
  prop_type p ≠ "Checkbox" →
  obj_member data (prop_name p) = Prim (VStr s) →
  trim s = "" →
  records.missingFields data props = Some missing →
  prop_name p ∈ missing.
Proof.
  intros Hp Hm Ht Hv Hs. revert missing.
  induction props as [| q ps IH]; intros missing; [by inversion Hp |].
  cbn. destruct (records.is_missing data q) as [b |] eqn:Eq; [| done].
  destruct (records.missingFields data ps) as [l |] eqn:El; [| done].
  intros [= <-]. apply elem_of_cons in Hp as [<- | Hp].
  - unfold records.is_missing in Eq. rewrite Hm, Hv in Eq.
    apply eqb_false_iff in Ht. rewrite Ht in Eq. cbn in Eq.
    destruct (String.eqb s "") eqn:Es; cbn in Eq.
    + injection Eq as <-. by left.
    + rewrite Hs in Eq. injection Eq as <-. by left.
  - specialize (IH Hp l eq_refl). destruct b; [by right | done].
Qed.

(** Check boxes are never missing. *)
Lemma checkbox_exempt (data : JsObject) (p : Property) :
  prop_type p = "Checkbox" → records.is_missing data p = Some false.
Proof.
  intros Ht. unfold records.is_missing. rewrite Ht.
  by destruct (isMandatory p).
Qed.

(** The save handler writes only after the check passed. *)
Lemma rejected_save_writes_nothing (clock : Clock) (st : records.State)
    (schema : Schema) (form : list records.FormEl) (db : DB) :
  records.activeSchema st = Some schema →
  records.missingFields (records.collect form) (properties schema)
    ≠ Some [] →
  final (records.btnSaveRecord clock st form db) = db.
Proof.
  intros Hs Hm. unfold records.btnSaveRecord. rewrite Hs.
  destruct (records.missingFields _ _) as [l |]; [| done].
  case_bool_decide; [congruence | done].
Qed.

(** The claim C2 where the property names are distinct and no checked
    property is named [__proto__], on both paths ([st] is the state either
    modal leaves): the save stops, the message lists the property, nothing
    is written. *)
Lemma mandatory_check_distinct_names (clock : Clock) (st : records.State)
    (schema : Schema) (form : list records.FormEl) (db : DB) (p : Property)
    (s : string) :
  records.activeSchema st = Some schema →
  records.form_of schema form →
  NoDup (prop_name <$> properties schema) →
  (∀ q, q ∈ properties schema → checked q = true →
        prop_name q ≠ "__proto__") →
  p ∈ properties schema →
  isMandatory p = true →
  prop_type p ≠ "Checkbox" →
  obj_member (records.collect form) (prop_name p) = Prim (VStr s) →
  trim s = "" →
  ∃ missing,
    prop_name p ∈ missing ∧
    records.btnSaveRecord clock st form db =
      alert ("Zorunlu alanlar doldurulmalı:" ++ records.bullet ++
             join records.bullet missing) db.
Proof.
  intros Hs Hform Hnd Hproto Hp Hm Ht Hv Htrim.
  pose proof (missingFields_exact _ _ Hform Hnd Hproto) as Hmissing.
  pose proof (missingFields_lists _ _ _ _ _ Hp Hm Ht Hv Htrim Hmissing) as Hin.
  eexists. split; [exact Hin |].
  unfold records.btnSaveRecord. rewrite Hs, Hmissing.
  case_bool_decide as E; [| done]. rewrite E in Hin. inversion Hin.
Qed.

End Mandatory.

(** * Two facts about the schema form and its store *)

(** In a store keyed by name, one entry at most carries a given name. *)
Lemma count_named (l : list (string * Schema)) (name : string) (s : Schema) :
  NoDup l.*1 →
  (∀ k v, (k, v) ∈ l → schema_name v = k) →
  (name, s) ∈ l →
  length (List.filter (fun s => String.eqb (schema_name s) name) l.*2) = 1%nat.
Proof.
  induction l as [| [k v] l IH]; intros Hnd Hkey Hin; [by inversion Hin |].
  cbn in Hnd. apply NoDup_cons in Hnd as [Hk Hnd]. cbn.
  assert (Hv : schema_name v = k) by (apply Hkey; by left).
  apply elem_of_cons in Hin as [[= <- <-] | Hin].
  - rewrite Hv, String.eqb_refl. cbn. f_equal.
    rewrite filter_nil; [done |].
    intros s' ([k' v'] & -> & Hin')%list_elem_of_fmap. cbn.
    apply eqb_false_iff. intros Heq.
    assert (schema_name v' = k') by (apply Hkey; by right).
    apply Hk. apply list_elem_of_fmap. exists (k', v'). split; [| done].
    cbn. congruence.
  - destruct (String.eqb (schema_name v) name) eqn:E.
    + apply String.eqb_eq in E. exfalso. apply Hk.
      apply list_elem_of_fmap. exists (name, s). split; [| done].
      cbn. congruence.
    + apply IH; [done | | done]. intros k' v' H'. apply Hkey. by right.
Qed.

Lemma NoDup_schema_names (m : gmap string Schema) : NoDup (schema_entries m).*1.
Proof.
  unfold schema_entries.
  rewrite (merge_sort_Permutation name_le (map_to_list m)).
  apply NoDup_fst_map_to_list.
Qed.

Lemma properties_of_rows_nil (rows : list schema.PropRow) :
  schema.properties_of_rows rows = [] ↔
  ∀ row, row ∈ rows → trim (schema.pname row) = "".
Proof.
  unfold schema.properties_of_rows. induction rows as [| row rows IH]; cbn.
  - split; [| done]. intros _ row H. inversion H.
  - destruct (String.eqb (trim (schema.pname row)) "") eqn:E; cbn.
    + rewrite IH. apply String.eqb_eq in E. split.
      * intros H row' [-> | H']%elem_of_cons; auto.
      * intros H row' H'. apply H. by right.
    + split; [done |]. intros H. apply eqb_false_iff in E.
      destruct E. apply H. by left.
Qed.

(** * The rows of the record table *)
Section Table.








(** The controls [buildForm] binds to properties: one for each property,
    a check box exactly for the type [Checkbox]. *)
Lemma buildForm_controls (schema : Schema) (existingData : JsObject) (db : DB) :
  map (fun f => (records.data_prop f, records.is_checkbox_field f))
    (records.buildForm schema existingData db)
  = map (fun p => (prop_name p, String.eqb (prop_type p) "Checkbox"))
      (properties schema).
Proof.
  unfold records.buildForm. rewrite map_map. apply map_ext. intros p.
  unfold records.buildField, records.is_checkbox_field.
  destruct (String.eqb (prop_type p) "Number") eqn:E1.
  { apply String.eqb_eq in E1. by rewrite E1. }
  destruct (String.eqb (prop_type p) "Select") eqn:E2.
  { apply String.eqb_eq in E2. by rewrite E2. }
  destruct (String.eqb (prop_type p) "Date") eqn:E3.
  { apply String.eqb_eq in E3. by rewrite E3. }
  destruct (String.eqb (prop_type p) "DateTime") eqn:E4.
  { apply String.eqb_eq in E4. by rewrite E4. }
  destruct (String.eqb (prop_type p) "Relation") eqn:E5.
  { apply String.eqb_eq in E5. by rewrite E5. }
  by destruct (String.eqb (prop_type p) "Checkbox").
Qed.

End Table.

(** * The claims *)

(** C1. A successful schema save that renames [old] to another name
    [new]: afterwards no record has the schema [old], every record that had
    it has the schema [new], the schema store has an entry named [new] and
    none named [old]. *)
Theorem rename_cascade_complete (st : schema.State) (schemaName : string)
    (rows : list schema.PropRow) (db : DB) (old : string) :
  schema.editMode st = true →
  schema.editingSchemaName st = Some old →
  trim schemaName ≠ old →
  succeeded (schema.btnSaveSchema st schemaName rows db) →
  let new := trim schemaName in
  let db' := final (schema.btnSaveSchema st schemaName rows db) in
  List.filter (fun r => String.eqb (rec_schema r) old) (recordStore.getAll db')
    = [] ∧
  (∀ k r, records db !! k = Some r → rec_schema r = old →
     records db' !! k = Some (with_schema new r)) ∧
  schemas db' !! new =
    Some {| schema_name := new;
            properties := schema.properties_of_rows rows |} ∧
  schemas db' !! old = None.
Proof.
  intros Hedit Hold Hne [Halerts Hthrown]. cbv zeta.
  revert Halerts Hthrown. unfold schema.btnSaveSchema.
  destruct (String.eqb (trim schemaName) ""); [discriminate |].
  case_bool_decide; [discriminate |].
  destruct (schema.nameTaken _ _ _); [discriminate |].
  rewrite Hedit, Hold.
  rewrite bool_decide_eq_false_2 by congruence.
  intros _ _. cbn [final done_].
  rewrite schemas_put, schemas_delete, schemas_renameSchema.
  cbn [schema_name]. repeat split.
  - apply filter_nil. intros r [k Hk]%elem_of_getAll.
    rewrite records_put, records_delete in Hk.
    rewrite renameSchema_records, lookup_fmap in Hk.
    destruct (records db !! k) as [r0 |]; [| done].
    injection Hk as <-. unfold rename_in.
    destruct (String.eqb (rec_schema r0) old) eqn:E; [| exact E].
    cbn. by apply eqb_false_iff.
  - intros k r Hk Hr. rewrite records_put, records_delete.
    rewrite renameSchema_records, lookup_fmap, Hk. cbn. unfold rename_in.
    by apply String.eqb_eq in Hr as ->.
  - apply lookup_insert_eq.
  - rewrite lookup_insert_ne by done. apply lookup_delete_eq.
Qed.

Lemma rename_cascade_complete_witness :
  let st := schema.openSchemaModal (Some Scenario.taskSchema) in
  let db' := final (schema.btnSaveSchema st "Todo" Scenario.taskRows
                      Scenario.db_project) in
  rec_schema <$> recordStore.getAll Scenario.db_project = ["Task"; "Project"] ∧
  rec_schema <$> recordStore.getAll db' = ["Todo"; "Project"] ∧
  schema_name <$> schemaStore.getAll db' = ["Project"; "Todo"] ∧
  schemas db' !! "Task" = None.
Proof.
  cbv zeta.
  pose proof (rename_cascade_complete
                (schema.openSchemaModal (Some Scenario.taskSchema))
                "Todo" Scenario.taskRows Scenario.db_project "Task") as H.
  destruct H as (_ & _ & _ & H).
  - reflexivity.
  - reflexivity.
  - vm_compute. discriminate.
  - split; vm_compute; reflexivity.
  - split; [| split; [| split]]; [vm_compute; reflexivity .. | exact H].
Defined.

(** C2 does not hold on the code where a check box shares its name with a
    mandatory property of another type: the form collects the state of the
    check box under that name, the check calls [trim] on [true], and the
    handler ends in a [TypeError] instead of the message that lists the
    empty property [A]. Nothing is written. The same happens on the create
    path and on the edit path. *)
Theorem mandatory_check_throws_on_shared_name :
  let create := records.openRecordModal Scenario.clashSchema in
  let edit :=
    records.openRecordModalForEdit [Scenario.clashSchema] Scenario.clashRecord in
  let outcome :=
    {| final := Scenario.db_clash; alerts := [];
       thrown := Some "TypeError: value.trim is not a function" |} in
  map (fun p => (prop_name p, prop_type p, isMandatory p))
    (properties Scenario.clashSchema)
    = [("A", "Text", true); ("X", "Text", true); ("X", "Checkbox", false)] ∧
  rec_id Scenario.clashRecord = Some 3 ∧
  rec_schema Scenario.clashRecord = "Clash" ∧
  records.form_of Scenario.clashSchema Scenario.clashForm ∧
  records.collect Scenario.clashForm = [("A", VStr ""); ("X", VBool true)] ∧
  trim "" = "" ∧
  records.btnSaveRecord Scenario.clock create Scenario.clashForm Scenario.db_clash
    = outcome ∧
  records.btnSaveRecord Scenario.clock edit Scenario.clashForm Scenario.db_clash
    = outcome.
Proof. cbv zeta. repeat split; vm_compute; reflexivity. Qed.


(** C3 fails as well on a target whose [Title] is there and empty: the
    label is the first data value of the target, not its title. The link
    (record 3) to the note that has a name and a blank title (record 2): *)
Lemma empty_title_skipped :
  let db := Scenario.db_links in
  let all := recordStore.all db in
  let schema := schemas db !! "Link" in
  (prop_type <$> records.find_property schema "Ref") = Some "Relation" ∧
  (rec_data <$> records db !! 3) = Some [("Ref", VStr "2")] ∧
  (rec_data <$> records db !! 2) =
    Some [("Name", VStr "N"); ("Title", VStr "")] ∧
  records.renderEntry (records.sort_desc all) schema ("Ref", VStr "2")
    = "Ref: N" ∧
  (∃ row, row ∈ records.renderRecordTable db ∧
          rec_id (records.row_record row) = Some 3 ∧
          records.row_vals row = row_text ["Ref: N"] (records.row_record row)).
Proof.
  cbv zeta. repeat split; try (vm_compute; reflexivity).
  eexists. split.
  - apply list_elem_of_lookup. exists 2%nat. vm_compute. reflexivity.
  - split; vm_compute; reflexivity.
Qed.

(** And the fallback label shows the stored value, which need not read as
    the id of the target: the flag (record 4) was saved ticked as a check
    box, its property is a relation now, [true] is loosely equal to the id
    1, and the blank note (record 1) has nothing to show. *)
Lemma fallback_shows_stored_value :
  let db := Scenario.db_retyped in
  let all := recordStore.all db in
  let schema := schemas db !! "Flag" in
  (prop_type <$> records.find_property schema "Ref") = Some "Relation" ∧
  (rec_data <$> records db !! 4) = Some [("Ref", VBool true)] ∧
  (rec_data <$> records db !! 1) =
    Some [("Name", VStr ""); ("Title", VStr "")] ∧
  loose_eq (VNum 1) (VBool true) = true ∧
  records.renderEntry (records.sort_desc all) schema ("Ref", VBool true)
    = "Ref: Kayıt #true" ∧
  (∃ row, row ∈ records.renderRecordTable db ∧
          rec_id (records.row_record row) = Some 4 ∧
          records.row_vals row
            = row_text ["Ref: Kayıt #true"] (records.row_record row)).
Proof.
  cbv zeta. repeat split; try (vm_compute; reflexivity).
  eexists. split.
  - apply list_elem_of_lookup. exists 3%nat. vm_compute. reflexivity.
  - split; vm_compute; reflexivity.
Qed.



(** C4. The save handler on its edit path, for a record that exists and a
    form that passes the mandatory check: the stored record then has the
    collected map as its whole [data] (a property the form did not collect
    is not in it), the new [lastEditedTime] and [lastEditedBy], and its
    former id, schema, [createdAt], [createdTime] and [createdBy]; no other
    record changes. *)
Theorem edit_save_replaces_data (clock : Clock) (st : records.State)
    (schema : Schema) (form : list records.FormEl) (db : DB) (id : Z)
    (r : Rec) :
  wf db →
  records.activeSchema st = Some schema →
  records.editMode st = true →
  records.editingRecordId st = Some id →
  records db !! id = Some r →
  records.missingFields (records.collect form) (properties schema) = Some [] →
  let res := records.btnSaveRecord clock st form db in
  let stored :=
    {| rec_id := Some id; rec_schema := rec_schema r;
       rec_data := records.collect form;
       createdAt := createdAt r; createdTime := createdTime r;
       createdBy := createdBy r;
       lastEditedTime := toLocaleString clock (Date_now clock);
       lastEditedBy := "Admin" |} in
  succeeded res ∧
  records (final res) = <[id := stored]> (records db) ∧
  records (final res) !! id = Some stored ∧
  (∀ p, obj_get (records.collect form) p = VUndef →
        obj_get (rec_data stored) p = VUndef) ∧
  (∀ k, k ≠ id → records (final res) !! k = records db !! k) ∧
  schemas (final res) = schemas db.
Proof.
  intros Hwf Hschema Hedit Hid Hr Hvalid. cbv zeta.
  unfold records.btnSaveRecord. rewrite Hschema, Hvalid, Hedit, Hid.
  cbn [bool_decide negb]. rewrite bool_decide_eq_true_2 by done. cbn [negb].
  unfold records.updateRecord. rewrite (find_by_id _ _ _ Hwf Hr).
  unfold recordStore.add, records.spread. cbn.
  rewrite (wf_id _ _ _ Hwf Hr). cbn.
  split; [done |]. split; [done |]. split; [apply lookup_insert_eq |].
  split; [done |]. split; [| done].
  intros k Hk. by rewrite lookup_insert_ne.
Qed.

Lemma edit_save_replaces_data_witness :
  let st := records.openRecordModalForEdit [Scenario.taskSchema]
              (with_id 1 {| rec_id := None; rec_schema := "Task";
                            rec_data := []; createdAt := 0; createdTime := "";
                            createdBy := ""; lastEditedTime := "";
                            lastEditedBy := "" |}) in
  let clock := {| Date_now := 1700000360000;
                  toLocaleString := fun t => "t" ++ decimal t |} in
  let form := [ {| records.el_prop := "Title";
                   records.el_control := records.ValueEl "Ship it" |} ] in
  records (final (records.btnSaveRecord clock st form Scenario.db_project)) !! 1
  = Some {| rec_id := Some 1; rec_schema := "Task";
            rec_data := [("Title", VStr "Ship it")];
            createdAt := 1700000000000;
            createdTime := "t1700000000000"; createdBy := "Admin";
            lastEditedTime := "t1700000360000"; lastEditedBy := "Admin" |}.
Proof.
  cbv zeta.
  refine (proj1 (proj2 (proj2
            (edit_save_replaces_data _ _ Scenario.taskSchema _ _ 1
               {| rec_id := Some 1; rec_schema := "Task";
                  rec_data := [("Title", VStr "Ship spec");
                               ("Priority", VStr "High")];
                  createdAt := 1700000000000;
                  createdTime := "t1700000000000"; createdBy := "Admin";
                  lastEditedTime := "t1700000000000";
                  lastEditedBy := "Admin" |}
               wf_db_project _ _ _ _ _))));
    vm_compute; reflexivity.
Defined.

(** C5. Deleting a schema: with the record cascade no entry of that name
    is left in the schema store and no record of that schema is left; with
    no cascade the schema entry is removed and the record store is what it
    was, so the records of that schema stay as they were. *)
Theorem deleteSchemaFlow_scope (schemaName : string) (db : DB) :
  let cascade := schema.deleteSchemaFlow schemaName true true db in
  let keep := schema.deleteSchemaFlow schemaName true false db in
  (schemas cascade !! schemaName = None ∧
   List.filter (fun r => String.eqb (rec_schema r) schemaName)
     (recordStore.getAll cascade) = []) ∧
  (schemas keep !! schemaName = None ∧
   records keep = records db).
Proof.
  cbv zeta. unfold schema.deleteSchemaFlow. cbn [negb].
  repeat split.
  - cbn. apply lookup_delete_eq.
  - apply filter_nil. intros r [k Hk]%elem_of_getAll.
    rewrite deleteBySchema_records in Hk. cbn [records schemaStore.delete set_schemas] in Hk.
    destruct (records db !! k) as [r0 |]; [| done]. cbn in Hk.
    destruct (String.eqb (rec_schema r0) schemaName) eqn:E; [done |].
    by injection Hk as <-.
  - cbn. apply lookup_delete_eq.
Qed.

(** C6. Saving a new schema (not an edit) under the name of a schema that
    exists: the handler stops with a message before any write, and the
    store still holds exactly one schema of that name. *)
Theorem create_duplicate_rejected (st : schema.State) (schemaName : string)
    (rows : list schema.PropRow) (db : DB) :
  wf db →
  schema.editMode st = false →
  (∃ s, s ∈ schemaStore.getAll db ∧ schema_name s = trim schemaName) →
  let res := schema.btnSaveSchema st schemaName rows db in
  final res = db ∧
  thrown res = None ∧
  (∃ msg, alerts res = [msg]) ∧
  (trim schemaName ≠ "" → schema.properties_of_rows rows ≠ [] →
   alerts res = ["Bu isimde bir şema zaten var."]) ∧
  length
    (List.filter (fun s => String.eqb (schema_name s) (trim schemaName))
       (schemaStore.getAll (final res))) = 1%nat.
Proof.
  intros Hwf Hmode (s & Hin & Hname). cbv zeta.
  assert (Htaken : schema.nameTaken st (trim schemaName)
                     (schemaStore.getAll db) = true).
  { unfold schema.nameTaken. apply existsb_exists. exists s.
    split; [by apply list_elem_of_In |].
    rewrite Hname, String.eqb_refl, Hmode. reflexivity. }
  assert (Hres : final (schema.btnSaveSchema st schemaName rows db) = db ∧
                 thrown (schema.btnSaveSchema st schemaName rows db) = None ∧
                 (∃ msg, alerts (schema.btnSaveSchema st schemaName rows db)
                         = [msg]) ∧
                 (trim schemaName ≠ "" → schema.properties_of_rows rows ≠ [] →
                  alerts (schema.btnSaveSchema st schemaName rows db)
                  = ["Bu isimde bir şema zaten var."])).
  { unfold schema.btnSaveSchema.
    destruct (String.eqb (trim schemaName) "") eqn:E.
    - apply String.eqb_eq in E. cbn. stopped.
    - case_bool_decide as Hp; [cbn; stopped |].
      rewrite Htaken. cbn. stopped. }
  destruct Hres as (Hfinal & Hthrown & Halert & Hmsg).
  repeat (split; [done |]). rewrite Hfinal.
  apply elem_of_schema_getAll in Hin as [name Hs].
  pose proof (wf_name _ _ _ Hwf Hs) as Hn.
  unfold schemaStore.getAll.
  apply (count_named _ (trim schemaName) s).
  - apply NoDup_schema_names.
  - intros k v Hkv%elem_of_schema_entries. by eapply wf_name.
  - apply elem_of_schema_entries. congruence.
Qed.

Lemma create_duplicate_rejected_witness :
  let res := schema.btnSaveSchema (schema.openSchemaModal None) " Task "
               Scenario.projectRows Scenario.db_project in
  final res = Scenario.db_project ∧
  alerts res = ["Bu isimde bir şema zaten var."] ∧
  schema_name <$> schemaStore.getAll (final res) = ["Project"; "Task"].
Proof.
  cbv zeta.
  pose proof (create_duplicate_rejected (schema.openSchemaModal None) " Task "
                Scenario.projectRows Scenario.db_project wf_db_project eq_refl)
    as H.
  destruct H as (Hfinal & _ & _ & Hmsg & _).
  { exists Scenario.taskSchema. split; [| vm_compute; reflexivity].
    apply elem_of_schema_getAll. exists "Task". vm_compute. reflexivity. }
  split; [exact Hfinal |]. split.
  - apply Hmsg; vm_compute; discriminate.
  - rewrite Hfinal. vm_compute. reflexivity.
Defined.

(** C7. Updating a record whose id is not in the record store: the
    operation reports that the record was not found and writes nothing. *)
Theorem updateRecord_not_found (id : Z) (updatedFields : records.UpdatedFields)
    (db : DB) :
  wf db →
  records db !! id = None →
  let res := records.updateRecord id updatedFields db in
  alerts res = ["Kayıt bulunamadı"] ∧ thrown res = None ∧ final res = db.
Proof.
  intros Hwf Hid. cbv zeta. unfold records.updateRecord.
  by rewrite (find_by_id_absent _ _ Hwf Hid).
Qed.

Lemma updateRecord_not_found_witness :
  records Scenario.db_project !! 7 = None ∧
  final (records.updateRecord 7
           {| records.upd_data := [("Title", VStr "x")];
              records.upd_lastEditedTime := "now";
              records.upd_lastEditedBy := "Admin" |}
           Scenario.db_project) = Scenario.db_project.
Proof.
  assert (H : records Scenario.db_project !! 7 = None)
    by (vm_compute; reflexivity).
  split; [exact H |].
  exact (proj2 (proj2 (updateRecord_not_found 7 _ _ wf_db_project H))).
Defined.

(** C8. The schema form refuses to save a schema without properties (the
    rows whose name trims to nothing are dropped first) and writes nothing
    then, so a schema it saves has at least one property; the store itself
    does not ask for one: the import stores a schema whose list of
    properties is empty. *)
Theorem schema_save_needs_property (st : schema.State) (schemaName : string)
    (rows : list schema.PropRow) (db : DB) :
  let res := schema.btnSaveSchema st schemaName rows db in
  ((∀ row, row ∈ rows → trim (schema.pname row) = "") →
   final res = db ∧ thrown res = None ∧
   (∃ msg, alerts res = [msg]) ∧
   (trim schemaName ≠ "" → alerts res = ["En az bir property ekleyin"])) ∧
  (succeeded res →
   ∃ s, schemas (final res) !! trim schemaName = Some s ∧
        properties s = schema.properties_of_rows rows ∧
        properties s ≠ []) ∧
  (∀ name, name ≠ "" →
   let imported :=
     schema.importSchemas
       (Some (schema.Array
                [Some {| schema.item_name := schema.StringName name;
                         schema.item_properties := Some [] |}])) db in
   schemas (final imported) !! name =
     Some {| schema_name := name; properties := [] |}).
Proof.
  cbv zeta. split; [| split].
  - intros Hrows%properties_of_rows_nil. unfold schema.btnSaveSchema.
    destruct (String.eqb (trim schemaName) "") eqn:E.
    + apply String.eqb_eq in E. cbn. stopped.
    + rewrite Hrows. cbn. stopped.
  - intros [Halerts Hthrown]. revert Halerts Hthrown.
    unfold schema.btnSaveSchema.
    destruct (String.eqb (trim schemaName) ""); [discriminate |].
    case_bool_decide as Hp; [discriminate |].
    destruct (schema.nameTaken _ _ _); [discriminate |].
    destruct (schema.editMode st).
    + case_bool_decide.
      * intros _ _. eexists. cbn [final done_]. rewrite schemas_put.
        split; [apply lookup_insert_eq | done].
      * destruct (schema.editingSchemaName st); [| discriminate].
        intros _ _. eexists. cbn [final done_]. rewrite schemas_put.
        split; [apply lookup_insert_eq | done].
    + intros _ _. eexists. cbn [final done_]. rewrite schemas_put.
      split; [apply lookup_insert_eq | done].
  - intros name Hname. cbn [schema.importSchemas schema.import_loop].
    apply eqb_false_iff in Hname as ->. cbn [final alert].
    rewrite schemas_put. apply lookup_insert_eq.
Qed.

Lemma schema_save_needs_property_witness :
  let blank := {| schema.pname := "   "; schema.ptype := "Text";
                  schema.poptions := ""; schema.pmandatory := false;
                  schema.prelatedschema := "" |} in
  let res := schema.btnSaveSchema (schema.openSchemaModal None) "Empty"
               [blank; blank] Scenario.db_project in
  final res = Scenario.db_project ∧
  alerts res = ["En az bir property ekleyin"].
Proof.
  cbv zeta.
  pose proof (schema_save_needs_property (schema.openSchemaModal None) "Empty"
    [ {| schema.pname := "   "; schema.ptype := "Text";
         schema.poptions := ""; schema.pmandatory := false;
         schema.prelatedschema := "" |};
      {| schema.pname := "   "; schema.ptype := "Text";
         schema.poptions := ""; schema.pmandatory := false;
         schema.prelatedschema := "" |} ] Scenario.db_project) as (H & _ & _).
  destruct H as (Hfinal & _ & _ & Hmsg).
  { intros row Hrow. apply elem_of_cons in Hrow as [-> | Hrow]; [reflexivity |].
    apply elem_of_cons in Hrow as [-> | Hrow]; [reflexivity | inversion Hrow]. }
  split; [exact Hfinal |]. apply Hmsg. vm_compute. discriminate.
Defined.

(** C9. [renameSchema(oldName, newName)] leaves every record of another
    schema as it is, changes the [schema] field alone in the records of
    [oldName] (id, data, [createdAt] and the provenance fields are kept),
    and neither adds nor removes a record. *)
Theorem renameSchema_frame (oldName newName : string) (db : DB) (k : Z)
    (r : Rec) :
  records db !! k = Some r →
  let db' := recordStore.renameSchema oldName newName db in
  (rec_schema r ≠ oldName → records db' !! k = Some r) ∧
  (rec_schema r = oldName →
   records db' !! k =
     Some {| rec_id := rec_id r; rec_schema := newName;
             rec_data := rec_data r; createdAt := createdAt r;
             createdTime := createdTime r; createdBy := createdBy r;
             lastEditedTime := lastEditedTime r;
             lastEditedBy := lastEditedBy r |}) ∧
  dom (records db') = dom (records db) ∧
  size (records db') = size (records db) ∧
  length (recordStore.getAll db') = length (recordStore.getAll db) ∧
  schemas db' = schemas db.
Proof.
  intros Hk db'. subst db'.
  repeat split.
  - intros Hne. rewrite renameSchema_records, lookup_fmap, Hk. cbn.
    unfold rename_in. by apply eqb_false_iff in Hne as ->.
  - intros Heq. rewrite renameSchema_records, lookup_fmap, Hk. cbn.
    unfold rename_in. by apply String.eqb_eq in Heq as ->.
  - rewrite renameSchema_records. apply dom_fmap_L.
  - rewrite renameSchema_records. apply map_size_fmap.
  - rewrite !length_getAll, renameSchema_records. apply map_size_fmap.
Qed.

Lemma renameSchema_frame_witness :
  let db' := recordStore.renameSchema "Task" "Todo" Scenario.db_project in
  (∃ r, records Scenario.db_project !! 1 = Some r ∧
        records db' !! 1 = Some (with_schema "Todo" r)) ∧
  records db' !! 2 = records Scenario.db_project !! 2 ∧
  size (records db') = 2%nat.
Proof.
  assert (H1 : records Scenario.db_project !! 1 =
               Some {| rec_id := Some 1; rec_schema := "Task";
                       rec_data := [("Title", VStr "Ship spec");
                                    ("Priority", VStr "High")];
                       createdAt := 1700000000000;
                       createdTime := "t1700000000000"; createdBy := "Admin";
                       lastEditedTime := "t1700000000000";
                       lastEditedBy := "Admin" |})
    by (vm_compute; reflexivity).
  assert (H2 : ∃ r, records Scenario.db_project !! 2 = Some r ∧
                    rec_schema r = "Project")
    by (eexists; split; vm_compute; reflexivity).
  destruct H2 as (r2 & H2 & Hs2).
  pose proof (renameSchema_frame "Task" "Todo" _ _ _ H1) as (_ & Ha & _ & Hb & _).
  pose proof (renameSchema_frame "Task" "Todo" _ _ _ H2) as (Hc & _).
  cbv zeta. split; [| split].
  - eexists. split; [exact H1 |]. rewrite Ha by reflexivity. reflexivity.
  - rewrite Hc, H2; [reflexivity |]. rewrite Hs2. discriminate.
  - rewrite Hb. vm_compute. reflexivity.
Defined.



(** * Further properties of the stores and the handlers *)

Section Keys.

Lemma fmap_snd_by_key {K V : Type} (f : V → K) (l : list (K * V)) :
  (∀ k v, (k, v) ∈ l → f v = k) → f <$> l.*2 = l.*1.
Proof.
  induction l as [| [k v] l IH]; intros H; [done |]. cbn. f_equal.
  - apply H. by left.
  - apply IH. intros k' v' H'. apply H. by right.
Qed.

Lemma ids_are_keys (l : list (Z * Rec)) :
  (∀ k v, (k, v) ∈ l → rec_id v = Some k) →
  rec_id <$> l.*2 = Some <$> l.*1.
Proof.
  induction l as [| [k v] l IH]; intros H; [done |]. cbn. f_equal.
  - apply H. by left.
  - apply IH. intros k' v' H'. apply H. by right.
Qed.

Lemma step_wf (db db' : DB) : wf db → step db db' → wf db'.
Proof.
  intros Hwf Hstep. destruct Hstep;
    auto using wf_btnSaveSchema, wf_deleteSchemaFlow, wf_importSchemas,
      wf_btnSaveRecord, wf_deleteRecord.
Qed.

Lemma records_importSchemas (file : option schema.Parsed) (db : DB) :
  records (final (schema.importSchemas file db)) = records db ∧
  keyGenerator (final (schema.importSchemas file db)) = keyGenerator db.
Proof.
  destruct (final_importSchemas file db) as [l ->].
  revert db. induction l as [| sc l IH]; intros db; [done |].
  cbn. destruct (IH (import_item db sc)) as [-> ->].
  unfold import_item. by destruct (importable sc).
Qed.

(** The schema form writes to the record store through the rename loop
    only. *)
Lemma records_btnSaveSchema (st : schema.State) (schemaName : string)
    (rows : list schema.PropRow) (db : DB) :
  let db' := final (schema.btnSaveSchema st schemaName rows db) in
  keyGenerator db' = keyGenerator db ∧
  (records db' = records db ∨
   ∃ old, schema.editingSchemaName st = Some old ∧
          records db' = rename_in old (trim schemaName) <$> records db).
Proof.
  cbv zeta. unfold schema.btnSaveSchema.
  repeat (case_match; try (split; [done | by left])).
  split; [done |]. right. eexists. split; [done |].
  cbn [final done_]. by rewrite records_put, records_delete, renameSchema_records.
Qed.

End Keys.

(** X1. In every state the interface reaches, no two schemas have the same
    name and no two records the same id, and every record has an id the key
    generator has passed. *)
Theorem reachable_unique_keys (db : DB) :
  reachable db →
  NoDup (schema_name <$> schemaStore.getAll db) ∧
  NoDup (rec_id <$> recordStore.getAll db) ∧
  (∀ r, r ∈ recordStore.getAll db →
        ∃ k, rec_id r = Some k ∧ 0 < k < keyGenerator db).
Proof.
  intros Hwf%reachable_wf. split; [| split].
  - unfold schemaStore.getAll. rewrite fmap_snd_by_key.
    + apply NoDup_schema_names.
    + intros k v Hkv%elem_of_schema_entries. by eapply wf_name.
  - unfold recordStore.getAll.
    rewrite ids_are_keys.
    + apply NoDup_fmap_2; [apply _ | apply NoDup_record_keys].
    + intros k v Hkv%elem_of_record_entries. by eapply wf_id.
  - intros r [k Hk]%elem_of_getAll. exists k.
    destruct Hwf as (_ & Hr & _). exact (map_Forall_lookup_1 _ _ _ _ Hr Hk).
Qed.

Lemma reachable_unique_keys_witness :
  NoDup (schema_name <$> schemaStore.getAll Scenario.db_clash) ∧
  NoDup (rec_id <$> recordStore.getAll Scenario.db_clash).
Proof.
  destruct (reachable_unique_keys _ reachable_db_clash) as (H1 & H2 & _).
  by split.
Defined.

(** No event makes the key generator go back. *)
Lemma step_keyGenerator (db db' : DB) :
  step db db' → keyGenerator db ≤ keyGenerator db'.
Proof.
  intros Hstep. destruct Hstep.
  - destruct (records_btnSaveSchema st schemaName rows db) as [-> _]. lia.
  - unfold schema.deleteSchemaFlow. by destruct confirmed, withRecords.
  - destruct (records_importSchemas file db) as [_ ->]. lia.
  - unfold records.btnSaveRecord, records.updateRecord, recordStore.add.
    repeat (case_match; cbn; try lia).
  - by destruct confirmed.
Qed.

(** The record form writes one record at most: a new one under the next
    key, or an existing one under its own key. *)
Lemma records_btnSaveRecord (clock : Clock) (st : records.State)
    (form : list records.FormEl) (db : DB) :
  wf db →
  let db' := final (records.btnSaveRecord clock st form db) in
  records db' = records db ∨
  (∃ r, records db' = <[keyGenerator db := r]> (records db)) ∨
  (∃ id r0 r, records db !! id = Some r0 ∧
              records db' = <[id := r]> (records db)).
Proof.
  intros Hwf. cbv zeta. unfold records.btnSaveRecord.
  destruct (records.activeSchema st); [| by left].
  destruct (records.missingFields _ _); [| by left].
  destruct (negb _); [by left |].
  assert (Hcreate : ∀ r, rec_id r = None →
            ∃ r', records (final (done_ (recordStore.add r db)))
                  = <[keyGenerator db := r']> (records db)).
  { intros r Hr. unfold recordStore.add. rewrite Hr. cbn. eauto. }
  destruct (records.editMode st), (records.editingRecordId st) as [id |];
    try (right; left; by apply Hcreate).
  unfold records.updateRecord.
  destruct (List.find _ _) as [target |] eqn:E; [| by left].
  right. right. apply find_some in E as [Hin Hid].
  apply bool_decide_eq_true in Hid.
  apply list_elem_of_In, elem_of_getAll in Hin as [j Hj].
  pose proof (wf_id _ _ _ Hwf Hj) as Hidj.
  assert (j = id) as -> by congruence.
  exists id, target. eexists. split; [done |].
  unfold recordStore.add. cbn. by rewrite Hid.
Qed.

Lemma step_keeps_free (db db' : DB) (k : Z) :
  wf db → records db !! k = None → k < keyGenerator db → step db db' →
  records db' !! k = None.
Proof.
  intros Hwf Hk Hgen Hstep. destruct Hstep.
  - destruct (records_btnSaveSchema st schemaName rows db)
      as [_ [-> | (old & _ & ->)]]; [done |].
    by rewrite lookup_fmap, Hk.
  - unfold schema.deleteSchemaFlow.
    destruct confirmed, withRecords; cbn [negb];
      rewrite ?deleteBySchema_records, ?records_delete; by rewrite ?Hk.
  - by destruct (records_importSchemas file db) as [-> _].
  - destruct (records_btnSaveRecord clock st form db Hwf)
      as [-> | [[r ->] | (id & r0 & r & Hid & ->)]]; [done | |].
    + rewrite lookup_insert_ne; [done | lia].
    + rewrite lookup_insert_ne; [done | congruence].
  - destruct confirmed; [| done]. cbn.
    destruct (decide (id = k)) as [-> | Hne].
    + apply lookup_delete_eq.
    + by rewrite lookup_delete_ne.
Qed.

(** X2. An id the store has handed out and that no record carries any
    more (its record was deleted) is never given to another record,
    whatever the user does next: a reference to it stays dangling. *)
Theorem deleted_id_never_reused (db db' : DB) (k : Z) :
  wf db →
  records db !! k = None →
  k < keyGenerator db →
  rtc step db db' →
  records db' !! k = None ∧ k < keyGenerator db'.
Proof.
  intros Hwf Hk Hgen Hsteps.
  induction Hsteps as [db | db db1 db2 Hstep _ IH]; [done |].
  apply IH.
  - by eapply step_wf.
  - by eapply step_keeps_free.
  - pose proof (step_keyGenerator _ _ Hstep). lia.
Qed.

Lemma deleted_id_never_reused_witness :
  let db' :=
    final (records.btnSaveRecord Scenario.clock
             (records.openRecordModal Scenario.taskSchema)
             Scenario.taskForm Scenario.db_dangling) in
  records Scenario.db_dangling !! 1 = None ∧
  records db' !! 1 = None.
Proof.
  cbv zeta.
  assert (Hwf : wf Scenario.db_dangling)
    by (apply wf_deleteRecord, wf_db_project).
  assert (H1 : records Scenario.db_dangling !! 1 = None)
    by (vm_compute; reflexivity).
  split; [exact H1 |].
  refine (proj1 (deleted_id_never_reused _ _ 1 Hwf H1 _ _)).
  - vm_compute. reflexivity.
  - eapply rtc_l; [apply step_saveRecord | apply rtc_refl].
Defined.

(** A form in which every mandatory property that is no check box reads
    a string that does not trim to nothing passes the check. *)
Lemma filled_form_passes (data : JsObject) (props : list Property) :
  (∀ p, p ∈ props → isMandatory p = true → prop_type p ≠ "Checkbox" →
        ∃ s, obj_member data (prop_name p) = Prim (VStr s) ∧ trim s ≠ "") →
  records.missingFields data props = Some [].
Proof.
  induction props as [| p ps IH]; intros H; [done |]. cbn.
  assert (Hp : records.is_missing data p = Some false).
  { unfold records.is_missing. destruct (isMandatory p) eqn:Em; [| done].
    destruct (String.eqb (prop_type p) "Checkbox") eqn:Et; [done |].
    apply eqb_false_iff in Et.
    destruct (H p) as (s & -> & Hs); [by left | done | done |].
    assert (Hne : String.eqb s "" = false).
    { apply eqb_false_iff. intros ->. by apply Hs. }
    cbn [truthy]. rewrite Hne. cbn [negb].
    by apply eqb_false_iff in Hs as ->. }
  rewrite Hp, IH; [done |]. intros q Hq. apply H. by right.
Qed.

(** X3. The save handler on its create path, for a form in which the
    handler reads, under the name of every mandatory property that is no
    check box, a string that does not trim to nothing: one record is added
    under a key no record had, with the schema name, the collected data
    and the four stamps of the clock; every record that was there is still
    there unchanged. *)
Theorem create_adds_fresh_record (clock : Clock) (st : records.State)
    (schema : Schema) (form : list records.FormEl) (db : DB) :
  wf db →
  records.activeSchema st = Some schema →
  records.editMode st = false →
  (∀ p, p ∈ properties schema → isMandatory p = true →
        prop_type p ≠ "Checkbox" →
        ∃ s, obj_member (records.collect form) (prop_name p) = Prim (VStr s) ∧
             trim s ≠ "") →
  let res := records.btnSaveRecord clock st form db in
  let k := keyGenerator db in
  let stamp := toLocaleString clock (Date_now clock) in
  let created :=
    {| rec_id := Some k; rec_schema := schema_name schema;
       rec_data := records.collect form; createdAt := Date_now clock;
       createdTime := stamp; createdBy := "Admin";
       lastEditedTime := stamp; lastEditedBy := "Admin" |} in
  succeeded res ∧
  records db !! k = None ∧
  records (final res) = <[k := created]> (records db) ∧
  (∀ j r, records db !! j = Some r → records (final res) !! j = Some r) ∧
  size (records (final res)) = S (size (records db)) ∧
  keyGenerator (final res) = k + 1 ∧
  schemas (final res) = schemas db.
Proof.
  intros Hwf Hschema Hmode Hfilled. cbv zeta.
  assert (Hfree : records db !! keyGenerator db = None).
  { destruct (records db !! keyGenerator db) as [r |] eqn:E; [| done].
    destruct Hwf as (_ & Hr & _).
    pose proof (map_Forall_lookup_1 _ _ _ _ Hr E) as [_ ?]. lia. }
  unfold records.btnSaveRecord.
  rewrite Hschema, (filled_form_passes _ _ Hfilled), Hmode.
  rewrite bool_decide_eq_true_2 by done. cbn [negb].
  unfold recordStore.add. cbn.
  split; [done |]. split; [done |]. split; [done |]. split; [| split]; [| | done].
  - intros j r Hj. rewrite lookup_insert_ne; [done | congruence].
  - by apply map_size_insert_None.
Qed.

Lemma create_adds_fresh_record_witness :
  (prop_name <$> List.filter checked (properties Scenario.taskSchema))
    = ["Title"] ∧
  records Scenario.db_schemas = ∅ ∧
  records Scenario.db_task =
    {[ 1 := {| rec_id := Some 1; rec_schema := "Task";
               rec_data := [("Title", VStr "Ship spec");
                            ("Priority", VStr "High")];
               createdAt := 1700000000000;
               createdTime := "t1700000000000"; createdBy := "Admin";
               lastEditedTime := "t1700000000000";
               lastEditedBy := "Admin" |} ]} ∧
  keyGenerator Scenario.db_task = 2.
Proof.
  assert (Hwf : wf Scenario.db_schemas).
  { unfold Scenario.db_schemas. do 2 apply wf_btnSaveSchema. exact wf_openDB. }
  assert (Hprops : properties Scenario.taskSchema =
            [ {| prop_name := "Title"; prop_type := "Title";
                 prop_options := []; isMandatory := true;
                 relatedSchema := None |};
              {| prop_name := "Priority"; prop_type := "Select";
                 prop_options := ["Low"; "High"]; isMandatory := false;
                 relatedSchema := None |} ])
    by (vm_compute; reflexivity).
  assert (Hempty : records Scenario.db_schemas = ∅)
    by (vm_compute; reflexivity).
  pose proof (create_adds_fresh_record Scenario.clock
                (records.openRecordModal Scenario.taskSchema)
                Scenario.taskSchema Scenario.taskForm
                Scenario.db_schemas Hwf eq_refl eq_refl) as H.
  destruct H as (_ & _ & Hrec & _ & _ & Hgen & _).
  { intros p Hp Hm _. rewrite Hprops in Hp.
    apply elem_of_cons in Hp as [-> | Hp].
    - exists "Ship spec". split; [vm_compute; reflexivity |].
      vm_compute. discriminate.
    - apply elem_of_cons in Hp as [-> | Hp]; [discriminate | inversion Hp]. }
  split; [rewrite Hprops; vm_compute; reflexivity |].
  split; [exact Hempty |]. split.
  - change Scenario.db_task with
      (final (records.btnSaveRecord Scenario.clock
                (records.openRecordModal Scenario.taskSchema)
                Scenario.taskForm Scenario.db_schemas)).
    rewrite Hrec, Hempty. vm_compute. reflexivity.
  - change Scenario.db_task with
      (final (records.btnSaveRecord Scenario.clock
                (records.openRecordModal Scenario.taskSchema)
                Scenario.taskForm Scenario.db_schemas)).
    rewrite Hgen. vm_compute. reflexivity.
Defined.

(** X4. After a record is deleted, a relation field that stores its id is
    shown with the deleted-record text: no other record matches the
    numeral of that id. The deletion asks nothing about the records that
    point at it. *)
Theorem deleted_target_shows_placeholder (db : DB) (n : Z)
    (schema : option Schema) (k : string) (prop : Property) :
  wf db →
  0 < n < 2 ^ 53 →
  records.find_property schema k = Some prop →
  prop_type prop = "Relation" →
  let db' := records.deleteRecord n true db in
  (∀ j r, j ≠ n → records db !! j = Some r → records db' !! j = Some r) ∧
  records db' !! n = None ∧
  records.renderEntry (records.sort_desc (recordStore.all db')) schema
    (k, VStr (decimal n))
  = k ++ ": Silinmiş Kayıt (#" ++ decimal n ++ ")".
Proof.
  intros Hwf Hn Hprop Htype. cbv zeta. cbn [records.deleteRecord].
  pose proof (wf_deleteRecordById n db Hwf) as Hwf'.
  split; [| split].
  - intros j r Hj Hr. cbn. by rewrite lookup_delete_ne.
  - cbn. apply lookup_delete_eq.
  - unfold records.renderEntry. rewrite Hprop, Htype.
    assert (Htruthy : truthy (VStr (decimal n)) = true).
    { destruct n as [| p |]; try lia.
      by destruct (JsFacts.decimal_pos p) as (c & r & -> & _). }
    rewrite Htruthy. change ("Relation" =? "Relation")%string with true.
    cbn [andb ToString]. rewrite resolve_miss; [done |].
    intros rec [j Hj]%elem_of_getAll.
    destruct (loose_eq (records.id_val rec) (VStr (decimal n))) eqn:E; [| done].
    exfalso. unfold records.id_val in E.
    rewrite (wf_id _ _ _ Hwf' Hj) in E.
    assert (j = n) as ->.
    { eapply loose_eq_number_inj; [exact E |]. by apply loose_eq_decimal_id. }
    cbn in Hj. by rewrite lookup_delete_eq in Hj.
Qed.

Lemma deleted_target_shows_placeholder_witness :
  records.renderEntry
    (records.sort_desc (recordStore.all Scenario.db_dangling))
    (Some Scenario.projectSchema) ("Task", VStr "1")
  = "Task: Silinmiş Kayıt (#1)".
Proof.
  refine (proj2 (proj2
    (deleted_target_shows_placeholder Scenario.db_project 1
       (Some Scenario.projectSchema) "Task"
       {| prop_name := "Task"; prop_type := "Relation"; prop_options := [];
          isMandatory := false; relatedSchema := Some "Task" |}
       wf_db_project _ _ _))).
  - lia.
  - vm_compute. reflexivity.
  - reflexivity.
Defined.

Section ImportFacts.

Lemma import_other (l : list (option schema.ImportItem)) (db : DB)
    (name : string) :
  (∀ sc s, sc ∈ l → importable sc = Some s → schema_name s ≠ name) →
  schemas (foldl import_item db l) !! name = schemas db !! name.
Proof.
  revert db. induction l as [| sc l IH]; intros db H; [done |].
  cbn [foldl]. rewrite IH.
  - unfold import_item.
    destruct (importable sc) as [s |] eqn:E; [| done].
    rewrite schemas_put, lookup_insert_ne; [done |].
    eapply H; [by left | done].
  - intros sc' s' Hin. apply H. by right.
Qed.


End ImportFacts.



(** X6. Saving an edited schema under its own name is never taken for a
    duplicate; the list of properties is replaced as a whole and no record
    is read or written, so the data stored under a removed property stays
    in the records. *)
Theorem edit_in_place (st : schema.State) (schemaName : string)
    (rows : list schema.PropRow) (db : DB) (old : string) :
  schema.editMode st = true →
  schema.editingSchemaName st = Some old →
  trim schemaName = old →
  old ≠ "" →
  schema.properties_of_rows rows ≠ [] →
  let res := schema.btnSaveSchema st schemaName rows db in
  succeeded res ∧
  schemas (final res) =
    <[old := {| schema_name := old;
                properties := schema.properties_of_rows rows |}]>
      (schemas db) ∧
  records (final res) = records db ∧
  keyGenerator (final res) = keyGenerator db.
Proof.
  intros Hmode Hold Hname Hne Hprops. cbv zeta.
  unfold schema.btnSaveSchema. rewrite Hname.
  apply eqb_false_iff in Hne as ->.
  rewrite bool_decide_eq_false_2 by done.
  assert (Htaken : schema.nameTaken st old (schemaStore.getAll db) = false).
  { unfold schema.nameTaken. rewrite Hmode, Hold. cbn [negb orb].
    induction (schemaStore.getAll db) as [| s l IH]; [done |]. cbn.
    rewrite IH, orb_false_r.
    destruct (String.eqb (schema_name s) old) eqn:E; [| done].
    apply String.eqb_eq in E as ->. by rewrite bool_decide_eq_true_2. }
  rewrite Htaken, Hmode, Hold. by rewrite bool_decide_eq_true_2.
Qed.

Lemma edit_in_place_witness :
  let st := schema.openSchemaModal (Some Scenario.taskSchema) in
  let res := schema.btnSaveSchema st "Task" [Scenario.rowA]
               Scenario.db_project in
  succeeded res ∧ records (final res) = records Scenario.db_project.
Proof.
  cbv zeta.
  destruct (edit_in_place (schema.openSchemaModal (Some Scenario.taskSchema))
              "Task" [Scenario.rowA] Scenario.db_project "Task")
    as (H1 & _ & H2 & _).
  - vm_compute. reflexivity.
  - vm_compute. reflexivity.
  - vm_compute. reflexivity.
  - discriminate.
  - vm_compute. discriminate.
  - split; [exact H1 | exact H2].
Defined.

(** X7. In edit mode a schema cannot be renamed onto another schema: when
    the new name is the name of a stored schema, the handler stops with a
    message before the rename cascade and writes nothing. *)
Theorem rename_onto_existing_rejected (st : schema.State)
    (schemaName : string) (rows : list schema.PropRow) (db : DB)
    (old : string) :
  schema.editMode st = true →
  schema.editingSchemaName st = Some old →
  trim schemaName ≠ old →
  (∃ s, s ∈ schemaStore.getAll db ∧ schema_name s = trim schemaName) →
  let res := schema.btnSaveSchema st schemaName rows db in
  final res = db ∧ thrown res = None ∧ (∃ msg, alerts res = [msg]) ∧
  (trim schemaName ≠ "" → schema.properties_of_rows rows ≠ [] →
   alerts res = ["Bu isimde bir şema zaten var."]).
Proof.
  intros Hmode Hold Hne (s & Hin & Hname). cbv zeta.
  assert (Htaken : schema.nameTaken st (trim schemaName)
                     (schemaStore.getAll db) = true).
  { unfold schema.nameTaken. apply existsb_exists. exists s.
    split; [by apply list_elem_of_In |].
    rewrite Hname, String.eqb_refl, Hmode, Hold. cbn.
    rewrite bool_decide_eq_false_2; [done | congruence]. }
  unfold schema.btnSaveSchema.
  destruct (String.eqb (trim schemaName) "") eqn:E.
  - apply String.eqb_eq in E. cbn. stopped.
  - case_bool_decide as Hp; [cbn; stopped |].
    rewrite Htaken. cbn. stopped.
Qed.

Lemma rename_onto_existing_rejected_witness :
  let st := schema.openSchemaModal (Some Scenario.taskSchema) in
  let res := schema.btnSaveSchema st "Project" Scenario.taskRows
               Scenario.db_project in
  final res = Scenario.db_project ∧
  alerts res = ["Bu isimde bir şema zaten var."].
Proof.
  cbv zeta.
  destruct (rename_onto_existing_rejected
              (schema.openSchemaModal (Some Scenario.taskSchema))
              "Project" Scenario.taskRows Scenario.db_project "Task")
    as (H1 & _ & _ & H2).
  - vm_compute. reflexivity.
  - vm_compute. reflexivity.
  - vm_compute. discriminate.
  - exists Scenario.projectSchema. split; [| vm_compute; reflexivity].
    apply elem_of_schema_getAll. exists "Project". vm_compute. reflexivity.
  - split; [exact H1 |]. apply H2; vm_compute; discriminate.
Defined.

Section TableOrder.






End TableOrder.



Lemma renderEntry_no_schema (allRecords : list Rec) (e : string * JsVal) :
  records.renderEntry allRecords None e = plain_entry e.
Proof. by destruct e. Qed.

(** X9. After a schema is deleted without its records, the records stay
    and the table still shows them: no schema is found for them, so every
    entry of their data, a relation too, is shown as the stored pair. *)
Theorem orphan_rendered_plain (db : DB) (name : string) (r : Rec) :
  wf db →
  rec_schema r = name →
  let db' := schema.deleteSchemaFlow name true false db in
  let row :=
    records.renderRow (records.sort_desc (recordStore.all db'))
      (schemaStore.getAll db') r in
  records db' = records db ∧
  records.row_schema row = name ∧
  records.row_vals row =
    join ", "
      (List.filter (fun s => negb (String.eqb s ""))
         (join ", " (map plain_entry (rec_data r)) :: records.autoFields r)).
Proof.
  intros Hwf Hname. cbv zeta. unfold schema.deleteSchemaFlow. cbn [negb].
  split; [done |]. split; [done |].
  unfold records.renderRow. cbn [records.row_vals].
  rewrite find_absent.
  - do 4 f_equal. apply map_ext. intros e. apply renderEntry_no_schema.
  - intros s [n Hn]%elem_of_schema_getAll. apply eqb_false_iff.
    rewrite schemas_delete in Hn.
    destruct (decide (n = name)) as [-> | Hne].
    + by rewrite lookup_delete_eq in Hn.
    + rewrite lookup_delete_ne in Hn by done.
      rewrite (wf_name _ _ _ Hwf Hn). congruence.
Qed.

Lemma orphan_rendered_plain_witness :
  let db' := schema.deleteSchemaFlow "Project" true false Scenario.db_project in
  ∃ r, records db' !! 2 = Some r ∧
       records.row_vals
         (records.renderRow (records.sort_desc (recordStore.all db'))
            (schemaStore.getAll db') r)
       = "Name: Launch, Task: 1, Oluşturulma: t1700000000000, Oluşturan: Admin, Son Düzenleme: t1700000000000, Son Düzenleyen: Admin".
Proof.
  cbv zeta.
  exists {| rec_id := Some 2; rec_schema := "Project";
            rec_data := [("Name", VStr "Launch"); ("Task", VStr "1")];
            createdAt := 1700000000000;
            createdTime := "t1700000000000"; createdBy := "Admin";
            lastEditedTime := "t1700000000000"; lastEditedBy := "Admin" |}.
  split; [vm_compute; reflexivity |].
  destruct (orphan_rendered_plain Scenario.db_project "Project"
    {| rec_id := Some 2; rec_schema := "Project";
       rec_data := [("Name", VStr "Launch"); ("Task", VStr "1")];
       createdAt := 1700000000000;
       createdTime := "t1700000000000"; createdBy := "Admin";
       lastEditedTime := "t1700000000000"; lastEditedBy := "Admin" |}
    wf_db_project eq_refl) as (_ & _ & ->).
  vm_compute. reflexivity.
Defined.

(** X10. What the form collects. The collected object has no name twice
    and never [__proto__]: the assignment to that name is swallowed by the
    setter of the prototype. Under any other name it holds the state of
    the last control bound to that name (an earlier control of the same
    name is overwritten without notice). What the handler then reads under
    a name is that state; for [__proto__], or for the name of another
    member of [Object.prototype] that no control has, it is the object
    found on the prototype; and [undefined] else. *)
Theorem collect_last_wins (form : list records.FormEl) (k : string) :
  let data := records.collect form in
  NoDup data.*1 ∧
  has_own data "__proto__" = false ∧
  obj_get data k =
    (if String.eqb k "__proto__" then VUndef
     else
       match last_control form k with
       | Some el => records.control_value (records.el_control el)
       | None => VUndef
       end) ∧
  obj_member data k =
    (if String.eqb k "__proto__" then Inherited k
     else
       match last_control form k with
       | Some el => Prim (records.control_value (records.el_control el))
       | None => if inherited k then Inherited k else Prim VUndef
       end).
Proof.
  cbv zeta. split; [apply collect_NoDup |]. split; [apply collect_no_proto |].
  split; [apply obj_get_collect | apply obj_member_collect].
Qed.

(** X11. The mandatory check on the form built for a schema with distinct
    property names. When no checked property (mandatory and no check box)
    is named [__proto__], the check never throws and the list it reports
    is exact: the names, in the order of the schema, of the checked
    properties whose control holds nothing but white space; a form with
    such a property is answered with the message and no write. When a
    checked property is named [__proto__], the handler reads
    [Object.prototype] under that name and ends in a [TypeError], whatever
    the form holds: no record of that schema can be saved. *)
Theorem mandatory_report_exact (clock : Clock) (st : records.State)
    (schema : Schema) (form : list records.FormEl) (db : DB) :
  records.activeSchema st = Some schema →
  records.form_of schema form →
  NoDup (prop_name <$> properties schema) →
  let proto :=
    existsb (fun p => checked p && String.eqb (prop_name p) "__proto__")
      (properties schema) in
  let missing :=
    prop_name <$>
      (List.filter blank_mandatory (zip (properties schema) form)).*1 in
  let res := records.btnSaveRecord clock st form db in
  (proto = false →
   records.missingFields (records.collect form) (properties schema)
     = Some missing ∧
   thrown res = None ∧
   (missing ≠ [] →
    res = alert ("Zorunlu alanlar doldurulmalı:" ++ records.bullet ++
                 join records.bullet missing) db)) ∧
  (proto = true →
   res = throw "TypeError: value.trim is not a function" db).
Proof.
  intros Hschema Hform Hnd. cbv zeta. split.
  - intros Hproto.
    assert (Hmissing := missingFields_exact schema form Hform Hnd).
    rewrite Hmissing.
    2:{ intros p Hp Hc Hname.
        apply not_true_iff_false in Hproto. apply Hproto.
        apply existsb_exists. exists p. split; [by apply list_elem_of_In |].
        by rewrite Hc, Hname. }
    split; [done |].
    unfold records.btnSaveRecord. rewrite Hschema, Hmissing.
    2:{ intros p Hp Hc Hname.
        apply not_true_iff_false in Hproto. apply Hproto.
        apply existsb_exists. exists p. split; [by apply list_elem_of_In |].
        by rewrite Hc, Hname. }
    split.
    + case_bool_decide; [| done]. cbn [negb].
      destruct (records.editMode st), (records.editingRecordId st); try done.
      unfold records.updateRecord. by destruct (List.find _ _).
    + intros Hne. by rewrite bool_decide_eq_false_2.
  - intros (p & Hp%list_elem_of_In & [Hc Hname%String.eqb_eq]%andb_prop)
      %existsb_exists.
    unfold records.btnSaveRecord. rewrite Hschema.
    by rewrite (missingFields_throws _ _ p Hp (is_missing_proto form p Hc Hname)).
Qed.

Lemma mandatory_report_exact_witness :
  let form :=
    [ {| records.el_prop := "Title";
         records.el_control := records.ValueEl "   " |};
      {| records.el_prop := "Priority";
         records.el_control := records.ValueEl "" |} ] in
  let cursed :=
    {| schema_name := "Cursed";
       properties := [ {| prop_name := "__proto__"; prop_type := "Text";
                          prop_options := []; isMandatory := true;
                          relatedSchema := None |} ] |} in
  records.btnSaveRecord Scenario.clock
    (records.openRecordModal Scenario.taskSchema) form Scenario.db_project
  = alert ("Zorunlu alanlar doldurulmalı:" ++ records.bullet ++ "Title")
      Scenario.db_project ∧
  records.btnSaveRecord Scenario.clock (records.openRecordModal cursed)
    [ {| records.el_prop := "__proto__";
         records.el_control := records.ValueEl "filled" |} ]
    Scenario.db_project
  = throw "TypeError: value.trim is not a function" Scenario.db_project.
Proof.
  cbv zeta. split.
  - match goal with
    | |- records.btnSaveRecord _ _ ?f _ = _ =>
        pose proof (mandatory_report_exact Scenario.clock
                      (records.openRecordModal Scenario.taskSchema)
                      Scenario.taskSchema f Scenario.db_project eq_refl) as H
    end.
    destruct H as [H _].
    + split; vm_compute; reflexivity.
    + apply (bool_decide_unpack _). vm_compute. exact I.
    + destruct H as (_ & _ & H); [vm_compute; reflexivity |].
      rewrite H; [| vm_compute; discriminate].
      vm_compute. reflexivity.
  - match goal with
    | |- records.btnSaveRecord _ (records.openRecordModal ?s) ?f _ = _ =>
        pose proof (mandatory_report_exact Scenario.clock
                      (records.openRecordModal s) s f Scenario.db_project
                      eq_refl) as H
    end.
    destruct H as [_ H].
    + split; vm_compute; reflexivity.
    + apply (bool_decide_unpack _). vm_compute. exact I.
    + apply H. vm_compute. reflexivity.
Defined.

Lemma Forall_filter_true {A : Type} (f : A → bool) (l : list A) :
  Forall (fun x => f x = true) (List.filter f l).
Proof.
  apply Forall_forall. intros x Hx%list_elem_of_In.
  by apply filter_In in Hx as [_ ?].
Qed.

(** X12. A schema stored by the schema form has a name that is not empty,
    and so has each of its properties; no option of a property is empty and
    no related schema is the empty name: blank rows, blank pieces of the
    option list and the unset schema picker are dropped before the write. *)
Theorem saved_schema_well_formed (st : schema.State) (schemaName : string)
    (rows : list schema.PropRow) (db : DB) :
  succeeded (schema.btnSaveSchema st schemaName rows db) →
  ∃ s,
    schemas (final (schema.btnSaveSchema st schemaName rows db))
      !! trim schemaName = Some s ∧
    schema_name s = trim schemaName ∧
    schema_name s ≠ "" ∧
    Forall
      (fun p =>
         prop_name p ≠ "" ∧
         Forall (fun o => o ≠ "") (prop_options p) ∧
         relatedSchema p ≠ Some "")
      (properties s).
Proof.
  intros [Halerts Hthrown].
  exists {| schema_name := trim schemaName;
            properties := schema.properties_of_rows rows |}.
  revert Halerts Hthrown. unfold schema.btnSaveSchema.
  destruct (String.eqb (trim schemaName) "") eqn:En; [discriminate |].
  apply eqb_false_iff in En.
  case_bool_decide as Hp; [discriminate |].
  destruct (schema.nameTaken _ _ _); [discriminate |].
  intros Halerts Hthrown.
  split; [| split; [done | split; [done |]]].
  - destruct (schema.editMode st); [case_bool_decide |];
      [| destruct (schema.editingSchemaName st); [| discriminate] |];
      cbn [final done_]; rewrite schemas_put; apply lookup_insert_eq.
  - cbn [properties]. unfold schema.properties_of_rows.
    eapply Forall_impl.
    + apply Forall_and. split; [apply Forall_filter_true |].
      apply Forall_forall. intros p Hp'%list_elem_of_In.
      apply filter_In in Hp' as [Hp' _].
      apply in_map_iff in Hp' as (row & <- & _).
      instantiate (1 := fun p =>
        Forall (fun o => o ≠ "") (prop_options p) ∧ relatedSchema p ≠ Some "").
      cbn. split.
      * eapply Forall_impl; [apply Forall_filter_true |].
        intros o Ho%negb_true_iff. by apply eqb_false_iff.
      * destruct (String.eqb (schema.prelatedschema row) "") eqn:E; [done |].
        apply eqb_false_iff in E. congruence.
    + intros p [Hname Hrest]. split; [| done].
      apply negb_true_iff in Hname. by apply eqb_false_iff.
Qed.

Lemma saved_schema_well_formed_witness :
  (prop_options <$> properties Scenario.taskSchema) = [[]; ["Low"; "High"]] ∧
  ∃ s, schemas Scenario.db_schemas !! "Project" = Some s ∧
       schema_name s ≠ "".
Proof.
  split; [vm_compute; reflexivity |].
  destruct (saved_schema_well_formed (schema.openSchemaModal None) " Project "
              Scenario.projectRows
              (final (schema.btnSaveSchema (schema.openSchemaModal None)
                        "Task" Scenario.taskRows openDB)))
    as (s & Hs & _ & Hne & _).
  - split; vm_compute; reflexivity.
  - exists s. split; [exact Hs | exact Hne].
Defined.

(** X13. The cascade of a schema deletion removes the records of that
    schema and nothing else: every record of another schema stays as it
    is, no record appears, every other schema stays, and the key generator
    does not move. *)
Theorem cascade_delete_frame (name : string) (db : DB) :
  let db' := schema.deleteSchemaFlow name true true db in
  (∀ k r, records db !! k = Some r → rec_schema r ≠ name →
          records db' !! k = Some r) ∧
  (∀ k r, records db' !! k = Some r →
          records db !! k = Some r ∧ rec_schema r ≠ name) ∧
  (∀ other, other ≠ name → schemas db' !! other = schemas db !! other) ∧
  keyGenerator db' = keyGenerator db.
Proof.
  cbv zeta. unfold schema.deleteSchemaFlow. cbn [negb].
  split; [| split; [| split]]; [| | | done].
  - intros k r Hk Hne. by apply deleteBySchema_frame.
  - intros k r Hk. rewrite deleteBySchema_records, records_delete in Hk.
    destruct (records db !! k) as [r0 |]; [| done]. cbn in Hk.
    destruct (String.eqb (rec_schema r0) name) eqn:E; [done |].
    injection Hk as <-. split; [done | by apply eqb_false_iff].
  - intros other Hne. rewrite schemas_deleteBySchema, schemas_delete.
    by rewrite lookup_delete_ne.
Qed.

Lemma cascade_delete_frame_witness :
  let db' := schema.deleteSchemaFlow "Task" true true Scenario.db_project in
  records db' !! 2 = records Scenario.db_project !! 2 ∧
  schemas db' !! "Project" = schemas Scenario.db_project !! "Project".
Proof.
  cbv zeta.
  destruct (cascade_delete_frame "Task" Scenario.db_project)
    as (Hkeep & _ & Hother & _).
  split.
  - assert (H2 : ∃ r, records Scenario.db_project !! 2 = Some r ∧
                      rec_schema r = "Project")
      by (eexists; split; vm_compute; reflexivity).
    destruct H2 as (r & H2 & Hs). rewrite H2. apply Hkeep; [exact H2 |].
    rewrite Hs. discriminate.
  - apply Hother. discriminate.
Defined.

(** X14. Renaming the records of a schema and renaming them back gives
    the record store it started from, when no record had the new name
    before; a record that had it would be taken along on the way back. *)
Theorem rename_round_trip (oldName newName : string) (db : DB) :
  (∀ k r, records db !! k = Some r → rec_schema r ≠ newName) →
  records
    (recordStore.renameSchema newName oldName
       (recordStore.renameSchema oldName newName db))
  = records db.
Proof.
  intros Hfree. rewrite !renameSchema_records. apply map_eq. intros k.
  rewrite !lookup_fmap. destruct (records db !! k) as [r |] eqn:E; [| done].
  cbn. f_equal. specialize (Hfree k r E). unfold rename_in.
  destruct (String.eqb (rec_schema r) oldName) eqn:Eo.
  - cbn. rewrite String.eqb_refl. apply String.eqb_eq in Eo.
    destruct r. cbn in *. by subst.
  - by apply eqb_false_iff in Hfree as ->.
Qed.

Lemma rename_round_trip_witness :
  records
    (recordStore.renameSchema "Todo" "Task"
       (recordStore.renameSchema "Task" "Todo" Scenario.db_project))
  = records Scenario.db_project ∧
  rec_schema <$> recordStore.getAll
    (recordStore.renameSchema "Project" "Task"
       (recordStore.renameSchema "Task" "Project" Scenario.db_project))
  = ["Task"; "Task"].
Proof.
  split; [| vm_compute; reflexivity].
  apply rename_round_trip. intros k r Hk.
  assert (Hall : forallb (fun r => negb (String.eqb (rec_schema r) "Todo"))
                   (recordStore.getAll Scenario.db_project) = true)
    by (vm_compute; reflexivity).
  assert (Hin : r ∈ recordStore.getAll Scenario.db_project)
    by (apply elem_of_getAll; eauto).
  set (l := recordStore.getAll Scenario.db_project) in *. clearbody l.
  rewrite forallb_forall in Hall. apply eqb_false_iff, negb_true_iff, Hall.
  by apply list_elem_of_In.
Defined.

(** X15. Editing a record whose schema is not in the cached list: the
    form is built for a schema of that name without properties, so it has
    no control, nothing is collected and the check finds nothing missing;
    saving it stores the record with an empty [data], the values it had
    are gone. *)
Theorem edit_without_cached_schema (clock : Clock) (cache : list Schema)
    (db : DB) (id : Z) (r : Rec) :
  wf db →
  records db !! id = Some r →
  (∀ s, s ∈ cache → schema_name s ≠ rec_schema r) →
  let st := records.openRecordModalForEdit cache r in
  let bare := {| schema_name := rec_schema r; properties := [] |} in
  records.activeSchema st = Some bare ∧
  records.buildForm bare (rec_data r) db = [] ∧
  (∀ form, records.form_of bare form →
     form = [] ∧
     records (final (records.btnSaveRecord clock st form db)) !! id =
       Some {| rec_id := Some id; rec_schema := rec_schema r; rec_data := [];
               createdAt := createdAt r; createdTime := createdTime r;
               createdBy := createdBy r;
               lastEditedTime := toLocaleString clock (Date_now clock);
               lastEditedBy := "Admin" |}).
Proof.
  intros Hwf Hr Hcache. cbv zeta.
  assert (Hfind : List.find
            (fun s => String.eqb (schema_name s) (rec_schema r)) cache = None).
  { apply find_absent. intros s Hs. by apply eqb_false_iff, Hcache. }
  unfold records.openRecordModalForEdit. rewrite Hfind.
  cbn [records.activeSchema].
  split; [done |]. split; [done |].
  intros form [_ Hform]. cbn in Hform.
  apply map_eq_nil in Hform as ->. split; [done |].
  unfold records.btnSaveRecord. cbn.
  rewrite (wf_id _ _ _ Hwf Hr).
  unfold records.updateRecord. rewrite (find_by_id _ _ _ Hwf Hr).
  unfold recordStore.add, records.spread. cbn.
  rewrite (wf_id _ _ _ Hwf Hr). cbn. apply lookup_insert_eq.
Qed.

Lemma edit_without_cached_schema_witness :
  let r := {| rec_id := Some 1; rec_schema := "Task";
              rec_data := [("Title", VStr "Ship spec");
                           ("Priority", VStr "High")];
              createdAt := 1700000000000;
              createdTime := "t1700000000000"; createdBy := "Admin";
              lastEditedTime := "t1700000000000"; lastEditedBy := "Admin" |} in
  let st := records.openRecordModalForEdit [] r in
  rec_data <$>
    records (final (records.btnSaveRecord Scenario.clock st []
                      Scenario.db_project)) !! 1
  = Some [].
Proof.
  cbv zeta.
  match goal with
  | |- context [records.openRecordModalForEdit [] ?r] =>
      destruct (edit_without_cached_schema Scenario.clock [] Scenario.db_project
                  1 r wf_db_project) as (_ & _ & H)
  end.
  - vm_compute. reflexivity.
  - intros s Hs. inversion Hs.
  - destruct (H [] (conj eq_refl eq_refl)) as [_ ->]. reflexivity.
Defined.

(** X16. What the relation picker offers is what the table shows: for
    every option of the picker that stands for a record, the value it
    stores resolves, in the record table, to the text the option shows. *)
Theorem picked_option_resolves (db : DB) (p : Property)
    (existingData : JsObject) (schema : option Schema) (k : string)
    (prop : Property) (o : records.OptionEl) :
  wf db →
  (∀ j, is_Some (records db !! j) → j < 2 ^ 53) →
  records.find_property schema k = Some prop →
  prop_type prop = "Relation" →
  o ∈ records.relationOptions (recordStore.all db) p existingData →
  records.opt_value o ≠ "" →
  records.renderEntry (records.sort_desc (recordStore.all db)) schema
    (k, VStr (records.opt_value o))
  = k ++ ": " ++ records.opt_text o.
Proof.
  intros Hwf Hbound Hprop Htype Ho Hvalue.
  unfold records.relationOptions in Ho.
  apply elem_of_cons in Ho as [-> | Ho]; [done |].
  destruct (relatedSchema p) as [related |]; [| by inversion Ho].
  destruct (String.eqb related ""); [by inversion Ho |].
  apply list_elem_of_fmap in Ho as (rec & -> & Hrec).
  apply list_elem_of_In, filter_In in Hrec as [Hrec%list_elem_of_In _].
  cbn [records.opt_value records.opt_text] in *.
  pose proof Hrec as [j Hj]%elem_of_getAll.
  pose proof (wf_id _ _ _ Hwf Hj) as Hid.
  assert (Hj' : 0 < j < 2 ^ 53).
  { destruct Hwf as (_ & Hr & _).
    pose proof (map_Forall_lookup_1 _ _ _ _ Hr Hj) as [_ ?].
    split; [lia | apply Hbound; eauto]. }
  unfold records.id_val in *. rewrite Hid in *. cbn [ToString] in *.
  unfold records.renderEntry. rewrite Hprop, Htype.
  apply eqb_false_iff in Hvalue. cbn [truthy]. rewrite Hvalue.
  change ("Relation" =? "Relation")%string with true. cbn [andb negb].
  rewrite (resolve_match db _ rec Hwf Hrec); [done |].
  unfold records.id_val. rewrite Hid. by apply loose_eq_decimal_id.
Qed.

Lemma picked_option_resolves_witness :
  records.renderEntry
    (records.sort_desc (recordStore.all Scenario.db_project))
    (Some Scenario.projectSchema) ("Task", VStr "1")
  = "Task: Ship spec".
Proof.
  refine (picked_option_resolves Scenario.db_project
    {| prop_name := "Task"; prop_type := "Relation"; prop_options := [];
       isMandatory := false; relatedSchema := Some "Task" |}
    [] (Some Scenario.projectSchema) "Task"
    {| prop_name := "Task"; prop_type := "Relation"; prop_options := [];
       isMandatory := false; relatedSchema := Some "Task" |}
    {| records.opt_value := "1"; records.opt_text := "Ship spec";
       records.opt_selected := false |}
    wf_db_project _ _ _ _ _).
  - intros j [r Hj].
    destruct wf_db_project as (_ & H & _).
    pose proof (map_Forall_lookup_1 _ _ _ _ H Hj) as [_ Hlt].
    assert (keyGenerator Scenario.db_project = 3) as Hg
      by (vm_compute; reflexivity).
    rewrite Hg in Hlt. lia.
  - vm_compute. reflexivity.
  - reflexivity.
  - match goal with
    | |- _ ∈ ?l =>
        assert (Hl : l =
          [ {| records.opt_value := ""; records.opt_text := "— Seçiniz —";
               records.opt_selected := false |};
            {| records.opt_value := "1"; records.opt_text := "Ship spec";
               records.opt_selected := false |} ])
          by (vm_compute; reflexivity);
        rewrite Hl
    end.
    right. left.
  - discriminate.
Defined.

Section RenameRelations.









End RenameRelations.



Section ExportFacts.

Lemma importable_as_item (s : Schema) :
  importable (as_item s)
  = if String.eqb (schema_name s) "" then None else Some s.
Proof. cbn. destruct (String.eqb _ _); [done |]. by destruct s. Qed.

(** No element of an exported file makes [put] raise: the loop reads the
    whole file. *)
Lemma import_exported (db db0 : DB) :
  final (schema.importSchemas (Some (exportSchemas db)) db0)
  = foldl import_item db0 (map as_item (schemaStore.getAll db)).
Proof.
  cbn [schema.importSchemas exportSchemas]. rewrite final_import_loop.
  f_equal. induction (schemaStore.getAll db) as [| s l IH]; [done |].
  cbn. by rewrite IH.
Qed.

Lemma import_known (l : list Schema) (db : DB) :
  (∀ s, s ∈ l → schemas db !! schema_name s = Some s) →
  foldl import_item db (map as_item l) = db.
Proof.
  induction l as [| s l IH]; intros H; [done |]. cbn [map foldl].
  assert (Hs : import_item db (as_item s) = db).
  { unfold import_item. rewrite importable_as_item.
    destruct (String.eqb _ _); [done |].
    unfold schemaStore.put, set_schemas.
    rewrite insert_id by (apply H; by left). by destruct db. }
  rewrite Hs. apply IH. intros s' Hs'. apply H. by right.
Qed.

Lemma NoDup_schema_getAll (db : DB) :
  wf db → NoDup (schema_name <$> schemaStore.getAll db).
Proof.
  intros Hwf. unfold schemaStore.getAll. rewrite fmap_snd_by_key.
  - apply NoDup_schema_names.
  - intros k v Hkv%elem_of_schema_entries. by eapply wf_name.
Qed.

Lemma import_restores (l : list Schema) (db0 : DB) (s : Schema) :
  NoDup (schema_name <$> l) → s ∈ l → schema_name s ≠ "" →
  schemas (foldl import_item db0 (map as_item l)) !! schema_name s
  = Some s.
Proof.
  intros Hnd Hin Hne.
  apply list_elem_of_split in Hin as (l1 & l2 & ->).
  rewrite fmap_app, fmap_cons in Hnd.
  apply NoDup_app in Hnd as (_ & _ & Hnd). apply NoDup_cons in Hnd as [Hs _].
  rewrite map_app, foldl_app. cbn [map foldl]. rewrite import_other.
  - unfold import_item. rewrite importable_as_item.
    apply eqb_false_iff in Hne as ->. rewrite schemas_put.
    apply lookup_insert_eq.
  - intros sc s' Hsc Himp Heq.
    apply list_elem_of_In, in_map_iff in Hsc as (s2 & <- & Hs2).
    rewrite importable_as_item in Himp.
    destruct (String.eqb _ _); [done |]. injection Himp as ->.
    apply Hs. apply list_elem_of_fmap. exists s'.
    split; [done | by apply list_elem_of_In].
Qed.

End ExportFacts.

(** X18. An exported file read back: imported into the store it came from
    it changes nothing; imported into any other state of the stores it
    brings every exported schema that has a name to what it was in the
    file, and it never touches a record. *)
Theorem export_import_round_trip (db db0 : DB) :
  wf db →
  final (schema.importSchemas (Some (exportSchemas db)) db) = db ∧
  (∀ name s, schemas db !! name = Some s → name ≠ "" →
     schemas (final (schema.importSchemas (Some (exportSchemas db)) db0))
       !! name = Some s) ∧
  records (final (schema.importSchemas (Some (exportSchemas db)) db0))
    = records db0.
Proof.
  intros Hwf. split; [| split].
  - rewrite import_exported.
    apply import_known. intros s [name Hs]%elem_of_schema_getAll.
    by rewrite (wf_name _ _ _ Hwf Hs).
  - intros name s Hs Hne. rewrite import_exported.
    pose proof (wf_name _ _ _ Hwf Hs) as Hname. rewrite <- Hname.
    apply import_restores.
    + by apply NoDup_schema_getAll.
    + apply elem_of_schema_getAll. eauto.
    + congruence.
  - apply records_importSchemas.
Qed.

Lemma export_import_round_trip_witness :
  final (schema.importSchemas (Some (exportSchemas Scenario.db_project))
           Scenario.db_project) = Scenario.db_project ∧
  schemas (final (schema.importSchemas
                    (Some (exportSchemas Scenario.db_project)) openDB))
    !! "Task" = schemas Scenario.db_project !! "Task".
Proof.
  destruct (export_import_round_trip Scenario.db_project openDB wf_db_project)
    as (H1 & H2 & _).
  split; [exact H1 |].
  assert (Hs : schemas Scenario.db_project !! "Task" = Some Scenario.taskSchema)
    by (vm_compute; reflexivity).
  rewrite Hs. apply H2; [exact Hs | discriminate].
Defined.

(** X19. A new schema whose name no stored schema has, with a name and at
    least one named property, is always saved: the store gets the schema
    under the trimmed name and nothing else changes. *)
Theorem create_schema_saved (st : schema.State) (schemaName : string)
    (rows : list schema.PropRow) (db : DB) :
  schema.editMode st = false →
  trim schemaName ≠ "" →
  schema.properties_of_rows rows ≠ [] →
  (∀ s, s ∈ schemaStore.getAll db → schema_name s ≠ trim schemaName) →
  let res := schema.btnSaveSchema st schemaName rows db in
  succeeded res ∧
  schemas (final res) =
    <[trim schemaName :=
        {| schema_name := trim schemaName;
           properties := schema.properties_of_rows rows |}]> (schemas db) ∧
  records (final res) = records db ∧
  keyGenerator (final res) = keyGenerator db.
Proof.
  intros Hmode Hname Hprops Hfree. cbv zeta. unfold schema.btnSaveSchema.
  apply eqb_false_iff in Hname as ->.
  rewrite bool_decide_eq_false_2 by done.
  assert (Htaken : schema.nameTaken st (trim schemaName)
                     (schemaStore.getAll db) = false).
  { unfold schema.nameTaken.
    induction (schemaStore.getAll db) as [| s l IH]; [done |]. cbn.
    rewrite IH by (intros s' Hs'; apply Hfree; by right).
    rewrite orb_false_r.
    assert (String.eqb (schema_name s) (trim schemaName) = false) as ->; [| done].
    apply eqb_false_iff, Hfree. by left. }
  by rewrite Htaken, Hmode.
Qed.

Lemma create_schema_saved_witness :
  let res := schema.btnSaveSchema (schema.openSchemaModal None) "Clash"
               [Scenario.rowA] Scenario.db_project in
  succeeded res ∧ records (final res) = records Scenario.db_project.
Proof.
  cbv zeta.
  destruct (create_schema_saved (schema.openSchemaModal None) "Clash"
              [Scenario.rowA] Scenario.db_project) as (H1 & _ & H2 & _).
  - reflexivity.
  - vm_compute. discriminate.
  - vm_compute. discriminate.
  - intros s Hs.
    assert (Hall : forallb (fun s => negb (String.eqb (schema_name s) "Clash"))
                     (schemaStore.getAll Scenario.db_project) = true)
      by (vm_compute; reflexivity).
    set (l := schemaStore.getAll Scenario.db_project) in *. clearbody l.
    rewrite forallb_forall in Hall.
    assert (Htrim : trim "Clash" = "Clash") by (vm_compute; reflexivity).
    rewrite Htrim. apply eqb_false_iff, negb_true_iff, Hall.
    by apply list_elem_of_In.
  - split; [exact H1 | exact H2].
Defined.

Section Names.

Lemma schemas_btnSaveRecord (clock : Clock) (st : records.State)
    (form : list records.FormEl) (db : DB) :
  schemas (final (records.btnSaveRecord clock st form db)) = schemas db.
Proof.
  unfold records.btnSaveRecord, records.updateRecord, recordStore.add.
  by repeat case_match.
Qed.

Lemma named_put (s : Schema) (db : DB) :
  schema_name s ≠ "" → named db → named (schemaStore.put s db).
Proof. intros Hs Hn. unfold named. rewrite schemas_put. by apply map_Forall_insert_2. Qed.

Lemma named_delete (name : string) (db : DB) :
  named db → named (schemaStore.delete name db).
Proof. intros Hn. unfold named. rewrite schemas_delete. by apply map_Forall_delete. Qed.

Lemma named_step (db db' : DB) : named db → step db db' → named db'.
Proof.
  intros Hn Hstep. destruct Hstep.
  - unfold schema.btnSaveSchema.
    destruct (String.eqb (trim schemaName) "") eqn:E; [done |].
    apply eqb_false_iff in E.
    repeat (case_match; try done); cbn [final done_];
      apply named_put; try done; by apply named_delete.
  - unfold schema.deleteSchemaFlow.
    destruct confirmed, withRecords; cbn [negb]; try done;
      by apply named_delete.
  - destruct (final_importSchemas file db) as [l ->].
    revert db Hn. induction l as [| sc l IH]; intros db Hn; [done |].
    cbn. apply IH. unfold import_item.
    destruct sc as [[[| name | message] [props |]] |]; try done. cbn.
    destruct (String.eqb name "") eqn:E; [done |].
    apply named_put; [| done]. by apply eqb_false_iff.
  - unfold named. by rewrite schemas_btnSaveRecord.
  - by destruct confirmed.
Qed.

End Names.

(** X20. No schema is ever stored under the empty name: the schema form
    refuses a name that trims to nothing and the import skips an element
    whose name is empty. *)
Theorem reachable_schema_named (db : DB) (name : string) (s : Schema) :
  reachable db → schemas db !! name = Some s → name ≠ "".
Proof.
  intros Hreach Hs.
  assert (Hn : named db).
  { clear Hs. induction Hreach as [| db db' _ IH Hstep].
    - apply map_Forall_empty.
    - by eapply named_step. }
  exact (map_Forall_lookup_1 _ _ _ _ Hn Hs).
Qed.

Lemma reachable_schema_named_witness :
  schemas Scenario.db_clash !! "Clash" = Some Scenario.clashSchema ∧
  "Clash" ≠ "".
Proof.
  assert (H : schemas Scenario.db_clash !! "Clash" = Some Scenario.clashSchema)
    by (vm_compute; reflexivity).
  split; [exact H |].
  exact (reachable_schema_named _ _ _ reachable_db_clash H).
Defined.
